(** * Quantity precision resolution of the AsterDEX client

    A shallow embedding of the precision subsystem of the client:
    the step-size database, the quantity normalisers of [utils.js], the
    [PrecisionManager] class and [placeMarketOrderSmart], followed by the
    properties established about them.

    JavaScript numbers are IEEE binary64 values.  A finite number is
    represented by the rational it denotes and every arithmetic operation
    is the exact operation followed by rounding to the nearest binary64
    value (ties to even, gradual underflow).  Two things are left out of
    the number model and stated here once: the sign of zero, and overflow
    to an infinity (the exponent range is unbounded above). *)

From Stdlib Require Import ZArith QArith Qround Qabs String Ascii List Lia.
From Stdlib Require Import Qreduction Lqa DecimalString.
From stdpp Require Import gmap strings.

Local Open Scope Z_scope.

(* ===================================================================== *)
(** ** JavaScript numbers *)
(* ===================================================================== *)

Module JSNumber.

Inductive jsnum : Type :=
| NaN
| Inf (neg : bool)
| Fin (q : Q).

Definition pow2 (e : Z) : Q :=
  if 0 <=? e then inject_Z (2 ^ e) else Qinv (inject_Z (2 ^ (- e))).

Definition pow10 (e : Z) : Q :=
  if 0 <=? e then inject_Z (10 ^ e) else Qinv (inject_Z (10 ^ (- e))).

(** [ilog2 a] is the binade of a positive rational: [2^e <= a < 2^(e+1)]. *)
Definition ilog2 (a : Q) : Z :=
  let c := Z.log2 (Qnum a) - Z.log2 (Zpos (Qden a)) in
  if Qle_bool (pow2 c) a then c else c - 1.

Definition round_half_even (x : Q) : Z :=
  let f := Qfloor x in
  match Qcompare (x - inject_Z f) (1 # 2) with
  | Lt => f
  | Gt => f + 1
  | Eq => if Z.even f then f else f + 1
  end.

(** Rounding of a real result to binary64: 53 significant bits, least
    exponent -1074, nearest with ties to even. *)
Definition b64 (q : Q) : Q :=
  if Qeq_bool q 0 then 0%Q
  else
    let a := Qabs q in
    let e := Z.max (ilog2 a - 52) (-1074) in
    let m := round_half_even (a / pow2 e) in
    Qred ((if Qle_bool 0 q then 1 else -1) * inject_Z m * pow2 e)%Q.

(** A number literal of the program text, [num / 10^scale]. *)
Definition lit (num : Z) (scale : Z) : jsnum :=
  Fin (b64 (inject_Z num * pow10 (- scale))).

Definition of_Z (z : Z) : jsnum := Fin (b64 (inject_Z z)).

Definition is_neg (q : Q) : bool := negb (Qle_bool 0 q).

(** [x * y] *)
Definition jmul (x y : jsnum) : jsnum :=
  match x, y with
  | NaN, _ | _, NaN => NaN
  | Inf a, Inf b => Inf (xorb a b)
  | Inf a, Fin q | Fin q, Inf a =>
      if Qeq_bool q 0 then NaN else Inf (xorb a (is_neg q))
  | Fin p, Fin q => Fin (b64 (p * q))
  end.

(** [x / y] *)
Definition jdiv (x y : jsnum) : jsnum :=
  match x, y with
  | NaN, _ | _, NaN => NaN
  | Inf _, Inf _ => NaN
  | Inf a, Fin q => Inf (xorb a (is_neg q))
  | Fin _, Inf _ => Fin 0
  | Fin p, Fin q =>
      if Qeq_bool q 0
      then (if Qeq_bool p 0 then NaN else Inf (is_neg p))
      else Fin (b64 (p / q))
  end.

(** [Math.floor(x)]: the floor of a binary64 value is a binary64 value. *)
Definition jfloor (x : jsnum) : jsnum :=
  match x with
  | Fin q => Fin (inject_Z (Qfloor q))
  | _ => x
  end.

(** [x <= y] and [x >= y]; any comparison with NaN is false. *)
Definition jle (x y : jsnum) : bool :=
  match x, y with
  | NaN, _ | _, NaN => false
  | Inf a, Inf b => implb b a
  | Inf a, Fin _ => a
  | Fin _, Inf b => negb b
  | Fin p, Fin q => Qle_bool p q
  end.

Definition jge (x y : jsnum) : bool := jle y x.

(** [x < y] *)
Definition jlt (x y : jsnum) : bool :=
  match x, y with
  | NaN, _ | _, NaN => false
  | _, _ => negb (jle y x)
  end.

(** ToBoolean on a number: NaN and zero are falsy. *)
Definition truthy (x : jsnum) : bool :=
  match x with
  | NaN => false
  | Inf _ => true
  | Fin q => negb (Qeq_bool q 0)
  end.

(** [Math.max(x, y)] *)
Definition jmax (x y : jsnum) : jsnum :=
  match x, y with
  | NaN, _ | _, NaN => NaN
  | _, _ => if jle x y then y else x
  end.

(** [Math.pow(10, p)] for an integer [p], taken as correctly rounded
    (it is exact for [0 <= p <= 22]). *)
Definition pow10_num (p : Z) : jsnum := Fin (b64 (pow10 p)).

(** *** [Math.round(-Math.log10(s))]

    For a finite [s > 0] the value is the integer [k] with
    [k - 1/2 <= -log10 s < k + 1/2], that is
    [10^(2k-1) <= 1/s^2 < 10^(2k+1)].  Both bounds are decided on
    rationals; no rational hits a bound, so the library's last-bit
    error in [log10] only matters for step sizes within one unit in the
    last place of [10^(k+1/2)]. *)
Fixpoint log10_up (fuel : nat) (t : Q) (k : Z) : Z :=
  match fuel with
  | O => k
  | S fuel' =>
      if Qle_bool (pow10 (2 * k + 1)) t then log10_up fuel' t (k + 1) else k
  end.

Fixpoint log10_down (fuel : nat) (t : Q) (k : Z) : Z :=
  match fuel with
  | O => k
  | S fuel' =>
      if Qle_bool (pow10 (2 * k - 1)) t then k else log10_down fuel' t (k - 1)
  end.

Definition round_neg_log10 (s : Q) : Z :=
  let t := Qinv (s * s) in
  if Qle_bool 1 t
  then log10_up (S (Z.to_nat (Z.log2 (Qnum t)))) t 0
  else log10_down (S (Z.to_nat (Z.log2 (Zpos (Qden t))))) t 0.

(** [Math.max(0, Math.round(-Math.log10(s)))] for a truthy [s > 0];
    [-log10 Infinity] is [-Infinity] and the maximum with 0 is 0. *)
Definition precision_of_step (s : Q) : Z := Z.max 0 (round_neg_log10 s).

(** *** [Number.prototype.toFixed] read back by [parseFloat]

    The text produced by [toFixed] is kept as the numeral it spells. *)
Inductive numeral : Type :=
| NumNaN                                    (* "NaN" *)
| NumInfinity (neg : bool)                  (* "Infinity", "-Infinity" *)
| NumShortest (q : Q)                       (* ToString of a value >= 1e21 *)
| NumFixed (neg : bool) (n : Z) (digits : Z).  (* n / 10^digits, signed *)

Definition round_half_up (x : Q) : Z := Qfloor (x + (1 # 2)).

(** [x.toFixed(f)]; [None] is the RangeError for [f] outside 0..100. *)
Definition toFixed (x : jsnum) (f : Z) : option numeral :=
  if (f <? 0) || (100 <? f) then None
  else
    Some
      match x with
      | NaN => NumNaN
      | Inf neg => NumInfinity neg
      | Fin q =>
          if Qle_bool (pow10 21) (Qabs q) then NumShortest q
          else NumFixed (is_neg q) (round_half_up (Qabs q * pow10 f)) f
      end.

Definition parseFloat_numeral (d : numeral) : jsnum :=
  match d with
  | NumNaN => NaN
  | NumInfinity neg => Inf neg
  | NumShortest q => Fin q
  | NumFixed neg n f =>
      Fin (b64 ((if neg then -1 else 1) * inject_Z n * pow10 (- f)))
  end.

End JSNumber.

(* ===================================================================== *)
(** ** JavaScript strings *)
(* ===================================================================== *)

Module JSString.
Import JSNumber.

Definition upper_ascii (c : ascii) : ascii :=
  let n := nat_of_ascii c in
  if (97 <=? n)%nat && (n <=? 122)%nat then ascii_of_nat (n - 32) else c.

(** [s.toUpperCase()] on the ASCII letters; instrument identifiers are
    ASCII and other bytes are left as they are. *)
Fixpoint toUpperCase (s : string) : string :=
  match s with
  | EmptyString => EmptyString
  | String c t => String (upper_ascii c) (toUpperCase t)
  end.

(** A run of [n] zeros. *)
Fixpoint zeros (n : nat) : string :=
  match n with
  | O => ""
  | S k => String "0" (zeros k)
  end.

(** [hay.includes(needle)] *)
Fixpoint includes (needle hay : string) : bool :=
  if String.prefix needle hay then true
  else
    match hay with
    | EmptyString => false
    | String _ t => includes needle t
    end.

(** *** [parseFloat] on a string: the longest prefix that is a
    StrDecimalLiteral, after leading white space. *)

Definition is_space (c : ascii) : bool :=
  let n := nat_of_ascii c in
  (n =? 32)%nat || ((9 <=? n)%nat && (n <=? 13)%nat).

Definition digit_of (c : ascii) : option Z :=
  let n := nat_of_ascii c in
  if (48 <=? n)%nat && (n <=? 57)%nat then Some (Z.of_nat (n - 48)) else None.

Fixpoint skip_space (s : string) : string :=
  match s with
  | String c t => if is_space c then skip_space t else s
  | EmptyString => s
  end.

(** Reads a run of digits: accumulated value, number of digits, rest. *)
Fixpoint read_digits (s : string) (acc : Z) (count : Z) : Z * Z * string :=
  match s with
  | String c t =>
      match digit_of c with
      | Some d => read_digits t (10 * acc + d) (count + 1)
      | None => (acc, count, s)
      end
  | EmptyString => (acc, count, s)
  end.

(** The exponent part [e[+-]digits]; 0 when there is none. *)
Definition read_exponent (s : string) : Z :=
  match s with
  | String c t =>
      if (Ascii.eqb c "e" || Ascii.eqb c "E")%bool then
        let '(neg, t') :=
          match t with
          | String "-" u => (true, u)
          | String "+" u => (false, u)
          | _ => (false, t)
          end in
        let '(v, n, _) := read_digits t' 0 0 in
        if n =? 0 then 0 else if neg then - v else v
      else 0
  | EmptyString => 0
  end.

Definition parseFloat (s : string) : jsnum :=
  let s0 := skip_space s in
  let '(neg, s1) :=
    match s0 with
    | String "-" u => (true, u)
    | String "+" u => (false, u)
    | _ => (false, s0)
    end in
  if String.prefix "Infinity" s1 then Inf neg
  else
    let '(ip, ni, s2) := read_digits s1 0 0 in
    let '(fp, nf, s3) :=
      match s2 with
      | String "." u => read_digits u ip 0
      | _ => (ip, 0, s2)
      end in
    if (ni + nf =? 0) then NaN
    else
      let e := read_exponent s3 in
      Fin (b64 ((if neg then -1 else 1) * inject_Z fp * pow10 (e - nf))).

End JSString.

(* ===================================================================== *)
(** ** step-size-database.js *)
(* ===================================================================== *)

Module StepSizeDatabase.
Import JSString.

Record entry : Type := mkEntry {
  stepSize : string;
  precision : Z;
  minQty : string;
  maxQty : string
}.

Definition e3 (maxq : string) : entry := mkEntry "0.001" 3 "0.001" maxq.
Definition e2 (maxq : string) : entry := mkEntry "0.01" 2 "0.01" maxq.
Definition e1 (maxq : string) : entry := mkEntry "0.1" 1 "0.1" maxq.
Definition e0 (maxq : string) : entry := mkEntry "1" 0 "1" maxq.

Definition STEP_SIZE_ENTRIES : list (string * entry) :=
  [ ("BTCUSDT", e3 "1000"); ("ETHUSDT", e3 "10000"); ("LTCUSDT", e3 "10000");
    ("BCHUSDT", e3 "10000"); ("ETCUSDT", e3 "10000"); ("TRXUSDT", e3 "10000");
    ("LINKUSDT", e3 "10000"); ("UNIUSDT", e3 "10000"); ("ATOMUSDT", e3 "10000");
    ("NEARUSDT", e3 "10000"); ("FTMUSDT", e3 "10000"); ("ALGOUSDT", e3 "10000");
    ("VETUSDT", e3 "10000"); ("ICPUSDT", e3 "10000"); ("FILUSDT", e3 "10000");
    ("APTUSDT", e3 "10000"); ("SUIUSDT", e3 "10000"); ("ARBUSDT", e3 "10000");
    ("OPUSDT", e3 "10000"); ("INJUSDT", e3 "10000"); ("SEIUSDT", e3 "10000");
    ("TIAUSDT", e3 "10000"); ("WLDUSDT", e3 "10000"); ("PENDLEUSDT", e3 "10000");
    ("JUPUSDT", e3 "10000"); ("WUSDT", e3 "10000"); ("BOMEUSDT", e3 "10000");
    ("BONKUSDT", e3 "10000"); ("WIFUSDT", e3 "10000"); ("POPCATUSDT", e3 "10000");
    ("MYROUSDT", e3 "10000"); ("FLOKIUSDT", e3 "10000"); ("PEPEUSDT", e3 "10000");
    ("SHIBUSDT", e3 "10000");
    ("DOGEUSDT", e0 "10000000"); ("ADAUSDT", e0 "10000000");
    ("AVAXUSDT", e0 "300000"); ("DOTUSDT", e0 "1000000");
    ("MATICUSDT", e0 "1000000");
    ("SOLUSDT", e2 "1000000"); ("BNBUSDT", e2 "100000");
    ("XRPUSDT", e1 "1000000");
    ("ASTERUSDT", e2 "2000000"); ("USDCUSDT", e2 "1000000");
    ("USDTUSDT", e2 "1000000"); ("BUSDUSDT", e2 "1000000");
    ("TUSDUSDT", e2 "1000000"); ("USDDUSDT", e2 "1000000");
    ("FDUSDUSDT", e2 "1000000"); ("TUSDTUSDT", e2 "1000000");
    ("USDFUSDT", e2 "1000000"); ("USDCEUSDT", e2 "1000000");
    ("USDBCUSDT", e2 "1000000"); ("USD1USDT", e2 "1000000");
    ("VUSDTUSDT", e2 "1000000"); ("CUSDTUSDT", e2 "1000000");
    ("LISUSDUSDT", e2 "1000000"); ("BONUSUSDUSDT", e2 "1000000");
    ("CDLUSDT", e2 "1000000"); ("TWTUSDT", e2 "1000000");
    ("FORMUSDT", e2 "1000000"); ("LISTAUSDT", e2 "1000000");
    ("JLPUSDT", e2 "1000000"); ("STONEUSDT", e2 "1000000");
    ("RSETHUSDT", e2 "1000000"); ("WBETHUSDT", e2 "1000000");
    ("ASBNBUSDT", e2 "1000000"); ("SLISBNBUSDT", e2 "1000000");
    ("FBTCUSDT", e2 "1000000"); ("SOLVBTCUSDT", e2 "1000000");
    ("PUMPBTCUSDT", e2 "1000000"); ("CAKEUSDT", e2 "1000000") ]%string.

(** The object literal: a map from own keys to entries.  The keys are
    pairwise distinct, so the order of the literal plays no part. *)
Definition STEP_SIZE_DATABASE : gmap string entry :=
  list_to_map STEP_SIZE_ENTRIES.

Definition getStepSizeInfo (symbol : string) : option entry :=
  STEP_SIZE_DATABASE !! toUpperCase symbol.

Definition getPrecisionFromDatabase (symbol : string) : Z :=
  match getStepSizeInfo symbol with
  | Some info => precision info
  | None => 2
  end.

Definition getStepSizeFromDatabase (symbol : string) : option string :=
  match getStepSizeInfo symbol with
  | Some info => Some (stepSize info)
  | None => None
  end.

(** [symbol.toUpperCase() in STEP_SIZE_DATABASE].  The [in] operator
    also sees the members of [Object.prototype]; each of their names has
    a lower-case letter, so no upper-cased string is one of them. *)
Definition isSymbolInDatabase (symbol : string) : bool :=
  bool_decide (is_Some (STEP_SIZE_DATABASE !! toUpperCase symbol)).

End StepSizeDatabase.

(* ===================================================================== *)
(** ** utils.js: the quantity normalisers *)
(* ===================================================================== *)

Module Utils.
Import JSNumber JSString.

(** [roundToStepFloor(qty, stepSize)]; [None] is the RangeError of
    [toFixed] when the derived precision exceeds 100 digits. *)
Definition roundToStepFloor (qty : jsnum) (stepSize : string) : option jsnum :=
  let s := parseFloat stepSize in
  if negb (truthy s) || jle s (Fin 0) then Some qty
  else
    let precision :=
      match s with
      | Fin q => precision_of_step q
      | _ => 0
      end in
    let stepped := jmul (jfloor (jdiv qty s)) s in
    match toFixed stepped precision with
    | Some text => Some (parseFloat_numeral text)
    | None => None
    end.

(** [ensureMinNotional(qty, price, minNotional, stepSize)] *)
Definition ensureMinNotional (qty price : jsnum) (minNotional stepSize : string)
  : option jsnum :=
  let mn := parseFloat (if String.eqb minNotional "" then "0" else minNotional) in
  if negb (truthy mn) || jle mn (Fin 0) then Some qty
  else
    let notional := jmul qty price in
    if jge notional mn then Some qty
    else
      let need := jdiv mn price in
      roundToStepFloor need stepSize.

(** [qtyFromNotional(notionalUsd, price, stepSize, minNotional)] *)
Definition qtyFromNotional (notionalUsd price : jsnum) (stepSize minNotional : string)
  : option jsnum :=
  if negb (truthy price) || jle price (Fin 0) then Some (Fin 0)
  else
    let q := jdiv notionalUsd price in
    match ensureMinNotional q price minNotional stepSize with
    | None => None
    | Some q' =>
        match roundToStepFloor q' stepSize with
        | None => None
        | Some r => Some (jmax (lit 1 8) r)
        end
    end.

End Utils.

(* ===================================================================== *)
(** ** The venue, the file system and the errors they raise *)
(* ===================================================================== *)

Module Venue.
Import JSNumber JSString.

(** The body of a venue error response, [error.response.data].  The
    message can be missing: [msg] is then [undefined]. *)
Record venue_data : Type := mkData { code : Z; msg : option string }.

Record http_response : Type := mkResponse {
  status : Z;
  data : option venue_data
}.

Inductive js_error : Type :=
| RequestError (message : string) (response : option http_response)
| RangeError
| TypeError
| AllPrecisionsFailed (startPrecision : Z) (symbol : string).

Inductive result (A : Type) : Type :=
| Ok (a : A)
| Throw (e : js_error).
Arguments Ok {A} a.
Arguments Throw {A} e.

(** The test of both catch blocks:
    [error.response && error.response.data &&
     error.response.data.code === -1111 &&
     error.response.data.msg.includes('Precision is over the maximum')].
    It is evaluated from left to right; with the code -1111 and no
    message the call of [includes] on [undefined] throws a TypeError,
    which is the answer [None]. *)
Definition precision_test (error : js_error) : option bool :=
  match error with
  | RequestError _ (Some (mkResponse _ (Some d))) =>
      if code d =? -1111 then
        match msg d with
        | Some text => Some (includes "Precision is over the maximum" text)
        | None => None
        end
      else Some false
  | _ => Some false
  end.

(** The test holds: the error is the venue's precision rejection. *)
Definition is_precision_error (error : js_error) : bool :=
  match precision_test error with
  | Some true => true
  | _ => false
  end.

(** The part of [exchangeInfo] that precision detection reads; the
    response body is an object. *)
Record filter : Type := mkFilter {
  filterType : string;
  filterStepSize : option string
}.

Record symbol_info : Type := mkSymbolInfo {
  symbolName : string;
  filters : option (list filter)
}.

Record exchange_info : Type := mkExchangeInfo {
  symbols : option (list symbol_info)
}.

(** What the program does to the outside, in order.  A submission is
    logged with the error it raised, [None] when it went through. *)
Inductive event : Type :=
| EvSubmit (symbol side : string) (quantity : jsnum) (reduceOnly : bool)
           (raised : option js_error)
| EvExchangeInfo
| EvSaveCache (written : bool).

Definition is_submit (e : event) : bool :=
  match e with
  | EvSubmit _ _ _ _ _ => true
  | _ => false
  end.

Definition raised_by {A} (r : result A) : option js_error :=
  match r with
  | Ok _ => None
  | Throw e => Some e
  end.

(** The collaborators, as transitions of an outside world [W]:
    [placeMarketOrder] (the signed order request), [getExchangeInfo]
    and [fs.writeFileSync] (true when the write went through). *)
Record env (W R : Type) : Type := mkEnv {
  placeMarketOrder : string -> string -> jsnum -> bool -> W -> result R * W;
  getExchangeInfo : W -> result exchange_info * W;
  writeFileSync : W -> bool * W
}.
Arguments placeMarketOrder {W R} _ _ _ _ _ _.
Arguments getExchangeInfo {W R} _ _.
Arguments writeFileSync {W R} _ _.

End Venue.

(* ===================================================================== *)
(** ** precision-manager.js *)
(* ===================================================================== *)

Module PrecisionManager.
Import JSNumber JSString StepSizeDatabase Venue.

(** A value held by the precision cache: the numbers the program writes
    are integers or NaN (which JSON stores as null). *)
Inductive pval : Type :=
| PNaN
| PNum (z : Z).

Definition pval_truthy (v : pval) : bool :=
  match v with
  | PNaN => false
  | PNum z => negb (z =? 0)
  end.

(** The substring rules at the end of [getPrecision]. *)
Definition patternPrecision (symbol : string) : Z :=
  let symbolUpper := toUpperCase symbol in
  if includes "BTC" symbolUpper || includes "ETH" symbolUpper then 3
  else if includes "ASTER" symbolUpper || includes "SOL" symbolUpper
          || includes "BNB" symbolUpper then 2
  else if includes "XRP" symbolUpper then 1
  else if includes "ADA" symbolUpper || includes "DOGE" symbolUpper
          || includes "AVAX" symbolUpper then 0
  else 2.

(** The names of the members that every object inherits from
    [Object.prototype].  A read [cache[name]] of one of them finds the
    inherited member, a function or an object, when the cache has no
    entry of its own under the name. *)
Definition inherited_member (name : string) : bool :=
  existsb (String.eqb name)
    [ "constructor"; "hasOwnProperty"; "isPrototypeOf"; "propertyIsEnumerable";
      "toLocaleString"; "toString"; "valueOf"; "__proto__";
      "__defineGetter__"; "__defineSetter__";
      "__lookupGetter__"; "__lookupSetter__" ]%string.

(** The cached value when [this.precisionCache[symbol]] is truthy, read
    through the entries of the cache itself. *)
Definition cachedPrecision (precisionCache : gmap string pval) (symbol : string)
  : option Z :=
  match precisionCache !! symbol with
  | Some (PNum z) => if pval_truthy (PNum z) then Some z else None
  | _ => None
  end.

(** [getPrecision(symbol)], reading [this.precisionCache].  The cache
    object is read through its own keys: this is the code for every
    symbol that is not an [inherited_member]; for one that is, and has no
    entry of its own, the code returns the inherited member instead. *)
Definition getPrecision (precisionCache : gmap string pval) (symbol : string) : Z :=
  match cachedPrecision precisionCache symbol with
  | Some z => z
  | None =>
      if isSymbolInDatabase symbol then getPrecisionFromDatabase symbol
      else patternPrecision symbol
  end.

(** [roundQuantity(quantity, precision)] *)
Definition roundQuantity (quantity : jsnum) (precision : Z) : jsnum :=
  let multiplier := pow10_num precision in
  jdiv (jfloor (jmul quantity multiplier)) multiplier.

(** [calculatePrecisionFromStepSize(stepSize)] *)
Definition calculatePrecisionFromStepSize (stepSize : string) : pval :=
  match parseFloat stepSize with
  | NaN => PNaN
  | Inf true => PNum 3
  | Inf false => PNum 0
  | Fin q => if Qle_bool q 0 then PNum 3 else PNum (precision_of_step q)
  end.

(** [list.find(f => f.filterType === name)?.stepSize] *)
Definition filter_step (fs : option (list filter)) (name : string) : option string :=
  match fs with
  | None => None
  | Some l =>
      match List.find (fun f => String.eqb (filterType f) name) l with
      | Some f => filterStepSize f
      | None => None
      end
  end.

Definition string_truthy (s : option string) : bool :=
  match s with
  | Some t => negb (String.eqb t "")
  | None => false
  end.

(** [detectPrecisionFromExchangeInfo(exchangeInfo, symbol)] *)
Definition detectPrecisionFromExchangeInfo (exchangeInfo : exchange_info)
    (symbol : string) : pval :=
  let symbolInfo :=
    match symbols exchangeInfo with
    | Some l => List.find (fun s => String.eqb (symbolName s) symbol) l
    | None => None
    end in
  match symbolInfo with
  | None => PNum 3
  | Some info =>
      let marketLot := filter_step (filters info) "MARKET_LOT_SIZE" in
      let lot := filter_step (filters info) "LOT_SIZE" in
      let stepSize := if string_truthy marketLot then marketLot else lot in
      match stepSize with
      | Some s => if String.eqb s "" then PNum 3
                  else calculatePrecisionFromStepSize s
      | None => PNum 3
      end
  end.

(** *** The stateful part

    The manager's state is its in-memory cache and the content of the
    cache file; both sit in a machine state together with the outside
    world and the log of what was done to it. *)
Section Stateful.
Context {W R : Type}.
Variable E : env W R.

Record machine : Type := mkMachine {
  precisionCache : gmap string pval;
  precisionFile : gmap string pval;
  world : W;
  log : list event
}.

(** Computations that may throw. *)
Definition M (A : Type) : Type := machine -> result A * machine.

Definition ret {A} (a : A) : M A := fun m => (Ok a, m).
Definition throw {A} (e : js_error) : M A := fun m => (Throw e, m).
Definition bind {A B} (c : M A) (k : A -> M B) : M B :=
  fun m =>
    match c m with
    | (Ok a, m') => k a m'
    | (Throw e, m') => (Throw e, m')
    end.
Definition try_catch {A} (c : M A) (handler : js_error -> M A) : M A :=
  fun m =>
    match c m with
    | (Ok a, m') => (Ok a, m')
    | (Throw e, m') => handler e m'
    end.
Definition gets {A} (f : machine -> A) : M A := fun m => (Ok (f m), m).

(** [loadPrecisionCache()]: the file's content, or an empty object. *)
Definition loadPrecisionCache (file : option (gmap string pval)) : gmap string pval :=
  match file with
  | Some content => content
  | None => ∅
  end.

(** [savePrecisionCache(cache)]: a failed write is logged and dropped. *)
Definition savePrecisionCache : M unit :=
  fun m =>
    let '(written, w') := writeFileSync E (world m) in
    (Ok tt,
     mkMachine (precisionCache m)
               (if written then precisionCache m else precisionFile m)
               w' (log m ++ [EvSaveCache written])).

(** [setPrecision(symbol, precision)] *)
Definition setPrecision (symbol : string) (precision : pval) : M unit :=
  fun m =>
    savePrecisionCache
      (mkMachine (<[symbol := precision]> (precisionCache m))
                 (precisionFile m) (world m) (log m)).

(** [getSmartQuantity(symbol, quantity)] *)
Definition getSmartQuantity (symbol : string) (quantity : jsnum) : M jsnum :=
  gets (fun m => roundQuantity quantity (getPrecision (precisionCache m) symbol)).

(** [this.placeMarketOrder(symbol, side, quantity, reduceOnly)] *)
Definition callPlaceMarketOrder (symbol side : string) (quantity : jsnum)
    (reduceOnly : bool) : M R :=
  fun m =>
    let '(r, w') := placeMarketOrder E symbol side quantity reduceOnly (world m) in
    (r, mkMachine (precisionCache m) (precisionFile m) w'
                  (log m ++ [EvSubmit symbol side quantity reduceOnly (raised_by r)])).

(** [this.getExchangeInfo()] *)
Definition callGetExchangeInfo : M exchange_info :=
  fun m =>
    let '(r, w') := getExchangeInfo E (world m) in
    (r, mkMachine (precisionCache m) (precisionFile m) w'
                  (log m ++ [EvExchangeInfo])).

(** The log line [roundedQuantity.toFixed(precision)] inside the
    [try]: it throws a RangeError above 100 digits. *)
Definition logRounded (roundedQuantity : jsnum) (precision : Z) : M unit :=
  match toFixed roundedQuantity precision with
  | Some _ => ret tt
  | None => throw RangeError
  end.

(** The loop of [handlePrecisionError]:
    [for (precision = startPrecision; precision >= 0; precision--)].
    [remaining] is the number of values still to try, so the value
    tried is [remaining - 1]; [None] is the fall through the loop. *)
Fixpoint precisionLoop (remaining : nat) (symbol : string) (quantity : jsnum)
    (tradeFunction : jsnum -> M R) : M (option R) :=
  match remaining with
  | O => ret None
  | S below =>
      let precision := Z.of_nat below in
      try_catch
        (let roundedQuantity := roundQuantity quantity precision in
         bind (logRounded roundedQuantity precision) (fun _ =>
         bind (tradeFunction roundedQuantity) (fun result =>
         bind (setPrecision symbol (PNum precision)) (fun _ =>
         ret (Some result)))))
        (fun error =>
           match precision_test error with
           | Some true => precisionLoop below symbol quantity tradeFunction
           | Some false => throw error
           | None => throw TypeError
           end)
  end.

(** [handlePrecisionError(symbol, quantity, tradeFunction)] *)
Definition handlePrecisionError (symbol : string) (quantity : jsnum)
    (tradeFunction : jsnum -> M R) : M R :=
  bind (gets (fun m => getPrecision (precisionCache m) symbol)) (fun startPrecision =>
  bind (precisionLoop (Z.to_nat (startPrecision + 1)) symbol quantity tradeFunction)
    (fun outcome =>
       match outcome with
       | Some result => ret result
       | None => throw (AllPrecisionsFailed startPrecision symbol)
       end)).

(** [placeMarketOrderSmart(symbol, side, quantity, reduceOnly)] of the
    client class. *)
Definition placeMarketOrderSmart (symbol side : string) (quantity : jsnum)
    (reduceOnly : bool) : M R :=
  try_catch
    (bind (getSmartQuantity symbol quantity) (fun smartQuantity =>
     callPlaceMarketOrder symbol side smartQuantity reduceOnly))
    (fun error =>
       match precision_test error with
       | Some true =>
           bind
             (try_catch
                (bind callGetExchangeInfo (fun exchangeInfo =>
                 let detectedPrecision :=
                   detectPrecisionFromExchangeInfo exchangeInfo symbol in
                 bind (setPrecision symbol detectedPrecision) (fun _ =>
                 bind (getSmartQuantity symbol quantity) (fun detectedQuantity =>
                 bind (callPlaceMarketOrder symbol side detectedQuantity reduceOnly)
                   (fun response => ret (Some response))))))
                (fun detectionError => ret None))
             (fun detected =>
                match detected with
                | Some response => ret response
                | None =>
                    handlePrecisionError symbol quantity
                      (fun roundedQuantity =>
                         callPlaceMarketOrder symbol side roundedQuantity reduceOnly)
                end)
       | Some false => throw error
       | None => throw TypeError
       end).

(** Number of calls of the submit function recorded in a log. *)
Definition submissions (l : list event) : nat :=
  length (List.filter is_submit l).

End Stateful.

End PrecisionManager.

(* ===================================================================== *)
(** ** Concrete venues used to run the code *)
(* ===================================================================== *)

Module Scenarios.
Import JSNumber JSString StepSizeDatabase Venue PrecisionManager.

(** The venue's rejection of a quantity with too many decimals. *)
Definition precisionRejected : js_error :=
  RequestError "Request failed with status code 400"
    (Some (mkResponse 400
       (Some (mkData (-1111)
          (Some "Precision is over the maximum defined for this asset."))))).


Definition networkDown : js_error := RequestError "ECONNRESET" None.


Definition is_whole (q : jsnum) : bool :=
  match q with
  | Fin x => Qeq_bool x (inject_Z (Qfloor x))
  | _ => false
  end.

(** A venue that takes whole-number quantities only and answers with
    the quantity filled; no exchange info; the cache file is writable. *)
Definition wholeVenue : env unit jsnum :=
  mkEnv unit jsnum
    (fun _ _ quantity _ w =>
       (if is_whole quantity then Ok quantity else Throw precisionRejected, w))
    (fun w => (Throw networkDown, w))
    (fun w => (true, w)).

(** A venue that rejects every quantity for its precision and publishes
    a lot-size step of 0.00000001 for FOOUSDT. *)
Definition fineStepInfo : exchange_info :=
  mkExchangeInfo
    (Some [mkSymbolInfo "FOOUSDT"
             (Some [mkFilter "PRICE_FILTER" None;
                    mkFilter "LOT_SIZE" (Some "0.00000001")])]).

Definition rejectingVenue : env unit jsnum :=
  mkEnv unit jsnum
    (fun _ _ _ _ w => (Throw precisionRejected, w))
    (fun w => (Ok fineStepInfo, w))
    (fun w => (true, w)).



Definition freshMachine {W} (w : W) : machine (W := W) :=
  mkMachine ∅ ∅ w [].

(** The arrow function handed to [handlePrecisionError] by
    [placeMarketOrderSmart]. *)
Definition submitWith {W R} (E : env W R) (symbol side : string)
    (reduceOnly : bool) : jsnum -> M R :=
  fun roundedQuantity => callPlaceMarketOrder E symbol side roundedQuantity reduceOnly.

End Scenarios.

(* ===================================================================== *)
(** ** Vocabulary of the properties *)
(* ===================================================================== *)

Module Vocabulary.
Import JSNumber JSString StepSizeDatabase Venue PrecisionManager.

(** The fallback classifier as the ordered rule list of the design
    document: the first rule one of whose names occurs in the
    upper-cased symbol gives the precision, and 2 is the default. *)
Definition fallbackRules : list (list string * Z) :=
  [ (["BTC"; "ETH"], 3);
    (["ASTER"; "SOL"; "BNB"], 2);
    (["XRP"], 1);
    (["ADA"; "DOGE"; "AVAX"], 0) ]%string.

Fixpoint firstMatch (rules : list (list string * Z)) (upper : string) : Z :=
  match rules with
  | [] => 2
  | (names, p) :: rest =>
      if existsb (fun name => includes name upper) names then p
      else firstMatch rest upper
  end.

(** A submission the venue rejected for its precision. *)
Definition is_precision_rejection (ev : event) : bool :=
  match ev with
  | EvSubmit _ _ _ _ (Some e) => is_precision_error e
  | _ => false
  end.

(** A submission that went through. *)
Definition is_success (ev : event) : bool :=
  match ev with
  | EvSubmit _ _ _ _ None => true
  | _ => false
  end.


Definition in_range (lo hi : Z) (v : pval) : Prop :=
  match v with
  | PNum z => lo <= z <= hi
  | PNaN => False
  end.

(** What one run of the loop of [handlePrecisionError] over [n]
    precisions leaves behind: the events it added, its result, and the
    cache and file after it, from the cache and file before it. *)
Inductive loop_run {R : Type} (symbol side : string) (reduceOnly : bool)
    (n : nat) (cache file : gmap string pval)
  : list event -> result (option R) -> gmap string pval -> gmap string pval -> Prop :=
| LoopSucceeded failed q written k r :
    Forall (fun ev => is_precision_rejection ev = true) failed ->
    (k < n)%nat -> length failed = (n - 1 - k)%nat ->
    loop_run symbol side reduceOnly n cache file
      (failed ++ [EvSubmit symbol side q reduceOnly None; EvSaveCache written])
      (Ok (Some r))
      (<[symbol := PNum (Z.of_nat k)]> cache)
      (if written then <[symbol := PNum (Z.of_nat k)]> cache else file)
| LoopFellThrough failed :
    Forall (fun ev => is_precision_rejection ev = true) failed ->
    length failed = n ->
    loop_run symbol side reduceOnly n cache file failed (Ok None) cache file
| LoopOtherError failed q e :
    Forall (fun ev => is_precision_rejection ev = true) failed ->
    (length failed < n)%nat ->
    precision_test e = Some false ->
    loop_run symbol side reduceOnly n cache file
      (failed ++ [EvSubmit symbol side q reduceOnly (Some e)])
      (Throw e) cache file
| LoopTestFailed failed q e :
    Forall (fun ev => is_precision_rejection ev = true) failed ->
    (length failed < n)%nat ->
    precision_test e = None ->
    loop_run symbol side reduceOnly n cache file
      (failed ++ [EvSubmit symbol side q reduceOnly (Some e)])
      (Throw TypeError) cache file
| LoopRangeError failed :
    Forall (fun ev => is_precision_rejection ev = true) failed ->
    (length failed < n)%nat ->
    loop_run symbol side reduceOnly n cache file failed (Throw RangeError) cache file.

End Vocabulary.

(* ===================================================================== *)
(** ** step-size-database.js: the listing functions *)
(* ===================================================================== *)

Module DatabaseQueries.
Import JSString StepSizeDatabase.

(** [getAllSymbols()]: [Object.keys] lists the keys in the order of the
    literal (none of them is an array index). *)
Definition getAllSymbols : list string := List.map fst STEP_SIZE_ENTRIES.

(** [getSymbolsByPrecision(precision)] *)
Definition getSymbolsByPrecision (wanted : Z) : list string :=
  List.map fst
    (List.filter (fun kv => precision (snd kv) =? wanted) STEP_SIZE_ENTRIES).

(** One step of the [forEach] of [getPrecisionStats]:
    [stats[precision] = (stats[precision] || 0) + 1]. *)
Definition countPrecision (stats : gmap Z nat) (info : entry) : gmap Z nat :=
  <[precision info := (default 0%nat (stats !! precision info) + 1)%nat]> stats.

(** [getPrecisionStats()] *)
Definition getPrecisionStats : gmap Z nat :=
  List.fold_left countPrecision (List.map snd STEP_SIZE_ENTRIES) ∅.

End DatabaseQueries.

(* ===================================================================== *)
(** ** utils.js: filters and safe formatting *)
(* ===================================================================== *)

Module Formatting.
Import JSNumber JSString Venue.

(** A filter of a symbol as the venue sends it, with the fields that
    [extractFilters] reads. *)
Record venue_filter : Type := mkVenueFilter {
  vfType : string;
  vfStepSize : option string;
  vfNotional : option string;
  vfMinNotional : option string;
  vfTickSize : option string
}.

Record venue_symbol : Type := mkVenueSymbol {
  vsName : string;
  vsFilters : option (list venue_filter)
}.

(** The same symbol as precision detection reads it. *)
Definition as_symbol_info (info : venue_symbol) : symbol_info :=
  mkSymbolInfo (vsName info)
    (option_map (List.map (fun f => mkFilter (vfType f) (vfStepSize f)))
       (vsFilters info)).

Record filter_values : Type := mkFilterValues {
  fvStepSize : string;
  fvMinNotional : string;
  fvTickSize : string
}.

(** [filters.find(f => f.filterType === name) || {}], read at one field. *)
Definition field_of (fs : list venue_filter) (name : string)
    (field : venue_filter -> option string) : option string :=
  match List.find (fun f => String.eqb (vfType f) name) fs with
  | Some f => field f
  | None => None
  end.

(** [a || b] on strings that may be missing. *)
Definition or_else (a b : option string) : option string :=
  match a with
  | Some s => if String.eqb s "" then b else a
  | None => b
  end.

(** [a || literal] *)
Definition or_default (a : option string) (literal : string) : string :=
  match a with
  | Some s => if String.eqb s "" then literal else s
  | None => literal
  end.

(** [extractFilters(symbolInfo)] *)
Definition extractFilters (symbolInfo : option venue_symbol) : filter_values :=
  let filters :=
    match symbolInfo with
    | Some info =>
        match vsFilters info with
        | Some fs => fs
        | None => []
        end
    | None => []
    end in
  mkFilterValues
    (or_default (or_else (field_of filters "MARKET_LOT_SIZE" vfStepSize)
                         (field_of filters "LOT_SIZE" vfStepSize))
                "0.00000001")
    (or_default (or_else (field_of filters "MIN_NOTIONAL" vfNotional)
                         (field_of filters "MIN_NOTIONAL" vfMinNotional))
                "0")
    (or_default (field_of filters "PRICE_FILTER" vfTickSize) "0.01").

(** The values handed to the safe parsers. *)
Inductive jsvalue : Type :=
| VNull
| VUndefined
| VString (s : string)
| VNumber (x : jsnum).

Definition isNaN (x : jsnum) : bool :=
  match x with
  | NaN => true
  | _ => false
  end.

(** [safeParseFloat(value, fallback)].  [parseFloat] of a number reads
    back the text of that number, which is the number itself. *)
Definition safeParseFloat (value : jsvalue) (fallback : jsnum) : jsnum :=
  match value with
  | VNull | VUndefined => fallback
  | VString s =>
      if String.eqb s "" then fallback
      else
        let parsed := parseFloat s in
        if isNaN parsed then fallback else parsed
  | VNumber x => if isNaN x then fallback else x
  end.

(** *** The text written by [toFixed] *)

(** The decimal digits of a natural number. *)
Definition digits (n : Z) : string :=
  NilZero.string_of_uint (N.to_uint (Z.to_N n)).

(** The text of [n / 10^f]: the digits of [n], padded with zeros on the
    left to at least [f + 1] of them, with a point before the last [f]. *)
Definition fixed_text (neg : bool) (n f : Z) : string :=
  let m := digits n in
  let k := Z.of_nat (String.length m) in
  let m := if k <=? f then String.append (zeros (Z.to_nat (f + 1 - k))) m else m in
  let k := Z.of_nat (String.length m) in
  let body :=
    if f =? 0 then m
    else String.append (substring 0 (Z.to_nat (k - f)) m)
           (String.append "." (substring (Z.to_nat (k - f)) (Z.to_nat f) m)) in
  String.append (if neg then "-" else "") body.

(** [ToString] of a whole binary64 value [x >= 1e21].  With [k] digits
    the candidates are the two neighbours [s] of [x / 10^e]; one is
    taken when [s * 10^e] rounds to [x], the closer one (the even one at
    a tie) when both do. *)
Definition shortest_with (x len k : Z) : option (Z * Z) :=
  let e := len - k in
  let lo := x / 10 ^ e in
  let hi := lo + 1 in
  let reads s := Qeq_bool (b64 (inject_Z (s * 10 ^ e))) (inject_Z x) in
  match reads lo, reads hi with
  | true, true =>
      let below := x - lo * 10 ^ e in
      let above := hi * 10 ^ e - x in
      Some (if below <? above then lo
            else if above <? below then hi
            else if Z.even lo then lo else hi, e)
  | true, false => Some (lo, e)
  | false, true => Some (hi, e)
  | false, false => None
  end.

(** The least number of digits that reads back as [x]; 17 always do. *)
Fixpoint shortest_from (x len : Z) (k : Z) (more : nat) : Z * Z :=
  match shortest_with x len k, more with
  | Some found, _ => found
  | None, S fewer => shortest_from x len (k + 1) fewer
  | None, O => (x, 0)
  end.

Fixpoint strip_zeros (fuel : nat) (s e : Z) : Z * Z :=
  match fuel with
  | S less => if (s mod 10 =? 0) && (0 <? s) then strip_zeros less (s / 10) (e + 1)
              else (s, e)
  | O => (s, e)
  end.

Definition shortest_text (x : Z) : string :=
  let len := Z.of_nat (String.length (digits x)) in
  let '(s, e) := shortest_from x len 1 16 in
  let '(s, e) := strip_zeros 20 s e in
  let ds := digits s in
  let k := Z.of_nat (String.length ds) in
  let mantissa :=
    match ds with
    | String d EmptyString => ds
    | String d rest => String d (String.append "." rest)
    | EmptyString => ds
    end in
  String.append mantissa (String.append "e+" (digits (e + k - 1))).

(** The text that a numeral stands for. *)
Definition numeral_text (d : numeral) : string :=
  match d with
  | NumNaN => "NaN"
  | NumInfinity neg => if neg then "-Infinity" else "Infinity"
  | NumShortest q =>
      String.append (if is_neg q then "-" else "") (shortest_text (Qfloor (Qabs q)))
  | NumFixed neg n f => fixed_text neg n f
  end.

(** [safeFormatNumber(value, decimals, fallback)]; [None] is the
    RangeError of [toFixed]. *)
Definition safeFormatNumber (value : jsvalue) (decimals : Z) (fallback : string)
  : option string :=
  let parsed := safeParseFloat value (of_Z 0) in
  if isNaN parsed then Some fallback
  else option_map numeral_text (toFixed parsed decimals).

End Formatting.

(* ===================================================================== *)
(** ** client.js: closing a position *)
(* ===================================================================== *)

Module Positions.
Import JSNumber JSString Venue PrecisionManager.

(** An element of the answer of [getPositions]. *)
Record position : Type := mkPosition {
  posSymbol : string;
  posAmount : option string
}.

(** [Math.abs(x)] *)
Definition jabs (x : jsnum) : jsnum :=
  match x with
  | NaN => NaN
  | Inf _ => Inf false
  | Fin q => Fin (Qabs q)
  end.

(** [new Error(message)]: an error with a message and no response. *)
Definition plainError (message : string) : js_error := RequestError message None.

Section Closing.
Context {W R : Type}.
Variable E : env W R.

(** [this.getPositions(symbol)], the signed request for the position
    list; the symbol is sent when it is not empty. *)
Variable getPositions : option string -> W -> result (list position) * W.

Definition callGetPositions (symbol : string) : M (list position) :=
  fun m =>
    let '(r, w') :=
      getPositions (if String.eqb symbol "" then None else Some symbol) (world m) in
    (r, mkMachine (precisionCache m) (precisionFile m) w' (log m)).

(** The amount held in a position list, as [getPositionAmount] reads it. *)
Definition amountIn (positions : list position) (symbol : string) : jsnum :=
  match List.find (fun p => String.eqb (posSymbol p) symbol) positions with
  | None => of_Z 0
  | Some p =>
      parseFloat
        match posAmount p with
        | Some s => if String.eqb s "" then "0" else s
        | None => "0"
        end
  end.

(** [getPositionAmount(symbol)] *)
Definition getPositionAmount (symbol : string) : M jsnum :=
  bind (callGetPositions symbol) (fun positions => ret (amountIn positions symbol)).

Definition quantity_truthy (quantity : option jsnum) : bool :=
  match quantity with
  | Some q => truthy q
  | None => false
  end.

(** [x === 0] *)
Definition is_zero (x : jsnum) : bool :=
  match x with
  | Fin q => Qeq_bool q 0
  | _ => false
  end.

(** [closePosition(symbol, quantity, side)]; [null] is [None]. *)
Definition closePosition (symbol : string) (quantity : option jsnum)
    (side : option string) : M R :=
  if quantity_truthy quantity && string_truthy side then
    callPlaceMarketOrder E symbol (default "" side)
      (default NaN quantity) true
  else
    bind (getPositionAmount symbol) (fun positionAmount =>
    if is_zero positionAmount then throw (plainError "No position to close")
    else
      let closeQuantity :=
        if quantity_truthy quantity then default NaN quantity
        else jabs positionAmount in
      let closeSide :=
        if string_truthy side then default "" side
        else if jlt (of_Z 0) positionAmount then "SELL" else "BUY" in
      callPlaceMarketOrder E symbol closeSide closeQuantity true).

(** [closePositionExact(symbol, exactQuantity, side)] *)
Definition closePositionExact (symbol : string) (exactQuantity : jsnum)
    (side : string) : M R :=
  callPlaceMarketOrder E symbol side exactQuantity true.

End Closing.

End Positions.

(* ===================================================================== *)
(** ** Vocabulary of the further properties *)
(* ===================================================================== *)

Module FurtherVocabulary.
Import JSNumber JSString StepSizeDatabase Venue PrecisionManager Vocabulary.

(** The quantities of the submissions of a log, in order. *)
Fixpoint submitted (l : list event) : list jsnum :=
  match l with
  | [] => []
  | EvSubmit _ _ q _ _ :: rest => q :: submitted rest
  | _ :: rest => submitted rest
  end.

(** Number of submissions of a log that went through. *)
Definition successes (l : list event) : nat :=
  length (List.filter is_success l).

(** Every stored number is at least 0. *)
Definition cache_nonneg (cache : gmap string pval) : Prop :=
  forall symbol z, cache !! symbol = Some (PNum z) -> 0 <= z.

(** The cache file can always be written. *)
Definition reliable_writes {W R : Type} (E : env W R) : Prop :=
  forall w, fst (writeFileSync E w) = true.

(** The step size [10^-n] written in decimal: "1", "0.1", "0.01", ... *)
Definition decimalStep (n : nat) : string :=
  match n with
  | O => "1"
  | S k => String.append "0." (String.append (zeros k) "1")
  end.

(** A binary64 value: [m * 2^e] with [|m| <= 2^53] and [e >= -1074]. *)
Definition is_binary64 (q : Q) : Prop :=
  exists m e : Z, Z.abs m <= 2 ^ 53 /\ -1074 <= e /\ (q == inject_Z m * pow2 e)%Q.

(** The calls made to the venue, without the writes of the cache file. *)
Definition venue_calls (l : list event) : list event :=
  List.filter (fun ev => match ev with EvSaveCache _ => false | _ => true end) l.

(** Two environments with the same venue, whose file systems differ
    only in whether a write goes through. *)
Definition same_venue {W R : Type} (E E' : env W R) : Prop :=
  (forall symbol side quantity reduceOnly w,
     placeMarketOrder E symbol side quantity reduceOnly w =
     placeMarketOrder E' symbol side quantity reduceOnly w) /\
  (forall w, getExchangeInfo E w = getExchangeInfo E' w) /\
  (forall w, snd (writeFileSync E w) = snd (writeFileSync E' w)).

(** The same venue with a cache file that cannot be written. *)
Definition unwritable {W R : Type} (E : env W R) : env W R :=
  mkEnv W R (placeMarketOrder E) (getExchangeInfo E)
    (fun w => (false, snd (writeFileSync E w))).

(** Machines that differ in the cache file and the record of its
    writes only. *)
Definition alike {W : Type} (m m' : machine (W := W)) : Prop :=
  precisionCache m = precisionCache m' /\
  world m = world m' /\
  venue_calls (log m) = venue_calls (log m').

(** Computations that take alike machines to the same result and to
    alike machines. *)
Definition agree {W A : Type} (c c' : M (W := W) A) : Prop :=
  forall m m', alike m m' ->
    fst (c m) = fst (c' m') /\ alike (snd (c m)) (snd (c' m')).

End FurtherVocabulary.

(* ===================================================================== *)
(** ** Properties *)
(* ===================================================================== *)

Import JSNumber JSString StepSizeDatabase Utils Venue PrecisionManager.
Import Scenarios Vocabulary.

(** *** The number model *)

Lemma pow10_nonneg_exp (e : Z) : 0 <= e -> pow10 e = inject_Z (10 ^ e).
Proof. intros H. unfold pow10. destruct (Z.leb_spec 0 e); [reflexivity | lia]. Qed.

Lemma pow10_neg_exp (e : Z) : e < 0 -> pow10 e = Qinv (inject_Z (10 ^ (- e))).
Proof. intros H. unfold pow10. destruct (Z.leb_spec 0 e); [lia | reflexivity]. Qed.

Lemma log10_up_spec (fuel : nat) (t : Q) :
  forall k : Z,
    (pow10 (2 * k - 1) <= t)%Q ->
    (t < pow10 (2 * (k + Z.of_nat fuel) + 1))%Q ->
    let r := log10_up fuel t k in
    (pow10 (2 * r - 1) <= t)%Q /\ (t < pow10 (2 * r + 1))%Q.
Proof.
  induction fuel as [|fuel IH]; intros k Hlo Hhi; cbn [log10_up].
  - cbv zeta. split; [exact Hlo|].
    replace (k + Z.of_nat 0) with k in Hhi by lia. exact Hhi.
  - destruct (Qle_bool (pow10 (2 * k + 1)) t) eqn:Hcmp.
    + apply IH.
      * replace (2 * (k + 1) - 1) with (2 * k + 1) by lia.
        apply Qle_bool_iff. exact Hcmp.
      * replace (k + 1 + Z.of_nat fuel) with (k + Z.of_nat (S fuel)) by lia.
        exact Hhi.
    + cbv zeta. split; [exact Hlo|].
      apply Qnot_le_lt. intros Hle. apply Qle_bool_iff in Hle. congruence.
Qed.

Lemma log10_down_spec (fuel : nat) (t : Q) :
  forall k : Z,
    (t < pow10 (2 * k + 1))%Q ->
    (pow10 (2 * (k - Z.of_nat fuel) - 1) <= t)%Q ->
    let r := log10_down fuel t k in
    (pow10 (2 * r - 1) <= t)%Q /\ (t < pow10 (2 * r + 1))%Q.
Proof.
  induction fuel as [|fuel IH]; intros k Hhi Hlo; cbn [log10_down].
  - cbv zeta. split; [|exact Hhi].
    replace (k - Z.of_nat 0) with k in Hlo by lia. exact Hlo.
  - destruct (Qle_bool (pow10 (2 * k - 1)) t) eqn:Hcmp.
    + cbv zeta. split; [|exact Hhi]. apply Qle_bool_iff. exact Hcmp.
    + apply IH.
      * replace (2 * (k - 1) + 1) with (2 * k - 1) by lia.
        apply Qnot_le_lt. intros Hle. apply Qle_bool_iff in Hle. congruence.
      * replace (k - 1 - Z.of_nat fuel) with (k - Z.of_nat (S fuel)) by lia.
        exact Hlo.
Qed.

Lemma pow2_le_pow10 (a b : Z) : 0 <= a <= b -> 2 ^ a <= 10 ^ b.
Proof.
  intros H. transitivity (2 ^ b).
  - apply Z.pow_le_mono_r; lia.
  - apply Z.pow_le_mono_l; lia.
Qed.

Lemma below_pow10 (t : Q) :
  (0 < t)%Q ->
  (t < pow10 (2 * (0 + Z.of_nat (S (Z.to_nat (Z.log2 (Qnum t))))) + 1))%Q.
Proof.
  intros Ht. destruct t as [n d]. unfold Qlt in Ht. cbn in Ht.
  assert (Hn : 0 < n) by lia.
  cbn [Qnum].
  set (f := Z.of_nat (S (Z.to_nat (Z.log2 n)))).
  assert (Hf : f = Z.log2 n + 1).
  { subst f. pose proof (Z.log2_nonneg n). lia. }
  rewrite pow10_nonneg_exp by lia.
  unfold Qlt. cbn.
  pose proof (Z.log2_spec n Hn) as [_ Hup].
  pose proof (pow2_le_pow10 (Z.succ (Z.log2 n)) (2 * (0 + f) + 1)) as Hp.
  assert (Hd : 1 <= Z.pos d) by lia.
  assert (H10 : n < 10 ^ (2 * (0 + f) + 1)) by lia.
  nia.
Qed.

Lemma above_pow10 (t : Q) :
  (0 < t)%Q ->
  (pow10 (2 * (0 - Z.of_nat (S (Z.to_nat (Z.log2 (Zpos (Qden t)))))) - 1) <= t)%Q.
Proof.
  intros Ht. destruct t as [n d]. unfold Qlt in Ht. cbn in Ht.
  assert (Hn : 1 <= n) by lia.
  cbn [Qden].
  set (f := Z.of_nat (S (Z.to_nat (Z.log2 (Z.pos d))))).
  assert (Hf : f = Z.log2 (Z.pos d) + 1).
  { subst f. pose proof (Z.log2_nonneg (Z.pos d)). lia. }
  rewrite pow10_neg_exp by lia.
  replace (- (2 * (0 - f) - 1)) with (2 * f + 1) by lia.
  assert (Hpos : 0 < 10 ^ (2 * f + 1)) by (apply Z.pow_pos_nonneg; lia).
  apply Qle_shift_inv_r.
  - rewrite <- (Zlt_Qlt 0). exact Hpos.
  - unfold Qle, Qmult, inject_Z. cbn.
    pose proof (Z.log2_spec (Z.pos d) ltac:(lia)) as [_ Hup].
    pose proof (pow2_le_pow10 (Z.succ (Z.log2 (Z.pos d))) (2 * f + 1)) as Hp.
    assert (H10 : Z.pos d < 10 ^ (2 * f + 1)) by lia.
    nia.
Qed.

(** [round_neg_log10 s] is the integer nearest to [-log10 s]: it is the
    [k] with [10^(2k-1) <= 1/s^2 < 10^(2k+1)]. *)
Lemma round_neg_log10_spec (s : Q) :
  (0 < s)%Q ->
  let k := round_neg_log10 s in
  (pow10 (2 * k - 1) <= / (s * s))%Q /\ (/ (s * s) < pow10 (2 * k + 1))%Q.
Proof.
  intros Hs. unfold round_neg_log10.
  set (t := Qinv (s * s)).
  assert (Ht : (0 < t)%Q).
  { subst t. apply Qinv_lt_0_compat.
    rewrite <- (Qmult_0_l s).
    apply Qmult_lt_compat_r; assumption. }
  destruct (Qle_bool 1 t) eqn:Hone.
  - apply log10_up_spec.
    + apply Qle_bool_iff in Hone.
      apply Qle_trans with (y := 1%Q); [|exact Hone].
      vm_compute. discriminate.
    + apply below_pow10. exact Ht.
  - apply log10_down_spec.
    + assert (Hlt : (t < 1)%Q).
      { apply Qnot_le_lt. intros Hle. apply Qle_bool_iff in Hle. congruence. }
      apply Qlt_trans with (y := 1%Q); [exact Hlt|].
      vm_compute. reflexivity.
    + apply above_pow10. exact Ht.
Qed.

(** Two well-known binary64 facts, as a check of the rounding: the value
    of the literal 0.1, and the quotient 0.3 / 0.1. *)
Example b64_one_tenth :
  b64 (1 # 10) = (3602879701896397 # 36028797018963968)%Q.
Proof. vm_compute. reflexivity. Qed.

Example quotient_of_three_tenths :
  jdiv (lit 3 1) (lit 1 1) = lit 29999999999999996 16 /\
  jfloor (jdiv (lit 3 1) (lit 1 1)) = of_Z 2.
Proof. vm_compute. split; reflexivity. Qed.

(** Each registry entry's precision is the one derived from its step
    size. *)
Lemma registry_precision_matches_step (key : string) (info : entry) :
  In (key, info) STEP_SIZE_ENTRIES ->
  calculatePrecisionFromStepSize (stepSize info) = PNum (precision info).
Proof.
  intros Hin.
  assert (Hall : forallb
                   (fun kv =>
                      match calculatePrecisionFromStepSize (stepSize (snd kv)) with
                      | PNum z => z =? precision (snd kv)
                      | PNaN => false
                      end) STEP_SIZE_ENTRIES = true) by (vm_compute; reflexivity).
  rewrite forallb_forall in Hall. specialize (Hall _ Hin). cbn [snd] in Hall.
  destruct (calculatePrecisionFromStepSize (stepSize info)) as [|z];
    [discriminate|].
  apply Z.eqb_eq in Hall. congruence.
Qed.

(** *** The precision resolver *)

Lemma cachedPrecision_absent (cache : gmap string pval) (symbol : string) :
  cache !! symbol = None -> cachedPrecision cache symbol = None.
Proof. intros H. unfold cachedPrecision. rewrite H. reflexivity. Qed.

Lemma getPrecision_fallback (cache : gmap string pval) (symbol : string) :
  cachedPrecision cache symbol = None ->
  getPrecision cache symbol =
    if isSymbolInDatabase symbol then getPrecisionFromDatabase symbol
    else patternPrecision symbol.
Proof. intros H. unfold getPrecision. rewrite H. reflexivity. Qed.

(** A learned precision other than zero is what the next resolution
    returns. *)
Lemma getPrecision_learned (cache : gmap string pval) (symbol : string) (p : Z) :
  p <> 0 -> getPrecision (<[symbol := PNum p]> cache) symbol = p.
Proof.
  intros Hp. unfold getPrecision, cachedPrecision.
  rewrite lookup_insert_eq. cbn.
  destruct (Z.eqb_spec p 0) as [->|_]; [contradiction | reflexivity].
Qed.

(** A learned zero is falsy for the test of [getPrecision]. *)
Lemma getPrecision_learned_zero (cache : gmap string pval) (symbol : string) :
  getPrecision (<[symbol := PNum 0]> cache) symbol =
    if isSymbolInDatabase symbol then getPrecisionFromDatabase symbol
    else patternPrecision symbol.
Proof.
  apply getPrecision_fallback. unfold cachedPrecision.
  rewrite lookup_insert_eq. reflexivity.
Qed.

Lemma patternPrecision_firstMatch (symbol : string) :
  patternPrecision symbol = firstMatch fallbackRules (toUpperCase symbol).
Proof.
  unfold patternPrecision, fallbackRules. cbn [firstMatch existsb].
  rewrite !orb_false_r, !orb_assoc. reflexivity.
Qed.

Lemma entries_keys_distinct : NoDup (STEP_SIZE_ENTRIES.*1).
Proof. apply (bool_decide_unpack _). vm_compute. reflexivity. Qed.

Lemma database_lookup_entries (key : string) (info : entry) :
  STEP_SIZE_DATABASE !! key = Some info <-> In (key, info) STEP_SIZE_ENTRIES.
Proof.
  unfold STEP_SIZE_DATABASE. rewrite <- list_elem_of_In.
  symmetry. apply elem_of_list_to_map. exact entries_keys_distinct.
Qed.

Lemma upper_ascii_idempotent (c : ascii) : upper_ascii (upper_ascii c) = upper_ascii c.
Proof. destruct c as [[] [] [] [] [] [] [] []]; vm_compute; reflexivity. Qed.

Lemma toUpperCase_idempotent (s : string) : toUpperCase (toUpperCase s) = toUpperCase s.
Proof.
  induction s as [|c s IH]; [reflexivity|].
  cbn [toUpperCase]. rewrite upper_ascii_idempotent, IH. reflexivity.
Qed.

Lemma database_keys_upper (key : string) (info : entry) :
  In (key, info) STEP_SIZE_ENTRIES -> toUpperCase key = key.
Proof.
  intros Hin.
  assert (Hall : forallb (fun kv => String.eqb (toUpperCase (fst kv)) (fst kv))
                   STEP_SIZE_ENTRIES = true) by (vm_compute; reflexivity).
  rewrite forallb_forall in Hall. specialize (Hall _ Hin).
  apply String.eqb_eq in Hall. exact Hall.
Qed.



(** C10. The learned cache is read under the symbol exactly as given
    while the registry upper-cases it.  With a value learned under the
    upper-case spelling of a symbol, the upper-case spelling resolves to
    that value (when it is not zero) and any other spelling of the same
    symbol does not: it resolves to the precision of the registry entry
    listed under the upper-case spelling when there is one, and to the
    ordered substring rules on the upper-case spelling when there is
    none.  The other spelling is one under which the cache holds nothing:
    no entry of its own and no inherited member. *)
Theorem C10_cache_is_case_sensitive (cache : gmap string pval) (symbol : string)
    (learned : pval) :
  toUpperCase symbol <> symbol ->
  cache !! symbol = None ->
  inherited_member symbol = false ->
  let upper := toUpperCase symbol in
  let cache' := <[upper := learned]> cache in
  (forall z, learned = PNum z -> z <> 0 -> getPrecision cache' upper = z) /\
  (forall info, In (upper, info) STEP_SIZE_ENTRIES ->
     getPrecision cache' symbol = precision info) /\
  ((forall info, ~ In (upper, info) STEP_SIZE_ENTRIES) ->
   getPrecision cache' symbol = firstMatch fallbackRules upper).
Proof.
  intros Hcase Hcache _ upper cache'.
  assert (Hmiss : cachedPrecision cache' symbol = None).
  { apply cachedPrecision_absent. subst cache' upper.
    rewrite lookup_insert_ne by exact Hcase. exact Hcache. }
  split; [|split].
  - intros z -> Hz. subst cache'. apply getPrecision_learned. exact Hz.
  - intros info Hin. apply database_lookup_entries in Hin.
    rewrite (getPrecision_fallback _ _ Hmiss).
    unfold isSymbolInDatabase, getPrecisionFromDatabase, getStepSizeInfo.
    fold upper. rewrite Hin.
    rewrite bool_decide_eq_true_2 by (eexists; reflexivity). reflexivity.
  - intros Hnone.
    rewrite (getPrecision_fallback _ _ Hmiss).
    unfold isSymbolInDatabase. fold upper.
    destruct (STEP_SIZE_DATABASE !! upper) as [info|] eqn:Hlook.
    + exfalso. apply (Hnone info). apply database_lookup_entries. exact Hlook.
    + rewrite bool_decide_eq_false_2 by (intros [x Hx]; discriminate Hx).
      apply patternPrecision_firstMatch.
Qed.

Lemma C10_cache_is_case_sensitive_witness :
  toUpperCase "dotusdt" <> "dotusdt"%string /\
  (∅ : gmap string pval) !! "dotusdt"%string = None /\
  inherited_member "dotusdt" = false /\
  getPrecision (<["DOTUSDT"%string := PNum 1]> ∅) "DOTUSDT" = 1 /\
  getPrecision (<["DOTUSDT"%string := PNum 1]> ∅) "dotusdt" = 0 /\
  patternPrecision "dotusdt" = 2 /\
  getPrecision (<["XRPEUR"%string := PNum 3]> ∅) "xrpeur" = 1.
Proof.
  assert (Hdot : toUpperCase "dotusdt" <> "dotusdt"%string)
    by (vm_compute; discriminate).
  assert (Hxrp : toUpperCase "xrpeur" <> "xrpeur"%string)
    by (vm_compute; discriminate).
  assert (Hnodot : (∅ : gmap string pval) !! "dotusdt"%string = None)
    by reflexivity.
  assert (Hnoxrp : (∅ : gmap string pval) !! "xrpeur"%string = None)
    by reflexivity.
  split; [exact Hdot | split; [exact Hnodot | split; [reflexivity|]]].
  destruct (C10_cache_is_case_sensitive ∅ "dotusdt" (PNum 1) Hdot Hnodot eq_refl)
    as [Hupper [Hregistry _]].
  destruct (C10_cache_is_case_sensitive ∅ "xrpeur" (PNum 3) Hxrp Hnoxrp eq_refl)
    as [_ [_ Hrules]].
  split; [exact (Hupper 1 eq_refl ltac:(discriminate))|].
  split.
  { refine (Hregistry (mkEntry "1" 0 "1" "1000000") _).
    vm_compute. auto 60. }
  split; [vm_compute; reflexivity|].
  etransitivity; [apply Hrules | vm_compute; reflexivity].
  intros info Hin. apply database_lookup_entries in Hin.
  vm_compute in Hin. discriminate Hin.
Defined.

(** C1. Learning fails at precision 0.  On BTCUSDT (registry precision 3)
    the ladder is rejected at 3, 2 and 1 and succeeds at 0; it stores 0
    for the symbol, and the next [getPrecision] answers 3, not 0: the
    stored zero is falsy in the test of the cache. *)
Theorem C1_learned_zero_is_not_returned :
  let run := handlePrecisionError wholeVenue "BTCUSDT" (lit 78125 4)
               (submitWith wholeVenue "BTCUSDT" "BUY" false) (freshMachine tt) in
  getPrecision (precisionCache (freshMachine tt)) "BTCUSDT" = 3 /\
  fst run = Ok (Fin 7) /\
  precisionCache (snd run) !! "BTCUSDT"%string = Some (PNum 0) /\
  getPrecision (precisionCache (snd run)) "BTCUSDT" = 3.
Proof. vm_compute. repeat split; reflexivity. Qed.

(** *** The quantity normalisers *)

Lemma ensureMinNotional_met (qty price : jsnum) (minNotional stepSize : string) :
  jge (jmul qty price)
      (parseFloat (if String.eqb minNotional "" then "0" else minNotional)) = true ->
  ensureMinNotional qty price minNotional stepSize = Some qty.
Proof.
  intros H. unfold ensureMinNotional. rewrite H.
  destruct (negb _ || jle _ _); reflexivity.
Qed.

(** At the tie the result is not 0.001. *)
Lemma C3_counterexample :
  ensureMinNotional (lit 1 4) (of_Z 50000) "5" "0.001" <> Some (lit 1 3).
Proof. vm_compute. discriminate. Qed.

(** C3 (amended). [ensureMinNotional(0.0001, 50000, "5", "0.001")] returns
    the quantity 0.0001 unchanged: the product 0.0001 * 50000 is exactly 5,
    the test [notional >= mn] holds at the tie, and no flooring to the
    step takes place. *)
Theorem C3_tie_returns_quantity_unchanged :
  jmul (lit 1 4) (of_Z 50000) = of_Z 5 /\
  ensureMinNotional (lit 1 4) (of_Z 50000) "5" "0.001" = Some (lit 1 4).
Proof.
  split; [vm_compute; reflexivity|].
  apply ensureMinNotional_met. vm_compute. reflexivity.
Qed.

(** C7. [roundToStepFloor] can return more than the quantity, and a value
    that is no multiple of the step.  With step "0.4" the derived
    precision is 0, the stepped value 0.8 is re-rounded by [toFixed(0)]
    and the result for 0.9 is 1.  With the power-of-ten step "0.000001"
    the quotient of 4.2999999999999995e-05 rounds up to 43 and the result
    4.3e-05 is above the quantity. *)
Theorem C7_result_above_quantity :
  roundToStepFloor (lit 9 1) "0.4" = Some (of_Z 1) /\
  jlt (lit 9 1) (of_Z 1) = true /\
  jdiv (of_Z 1) (parseFloat "0.4") = lit 25 1 /\
  roundToStepFloor (lit 42999999999999995 21) "0.000001" = Some (lit 43 6) /\
  jlt (lit 42999999999999995 21) (lit 43 6) = true.
Proof. vm_compute. repeat split; reflexivity. Qed.

(** C8. [roundToStepFloor] is not idempotent.  With step "0.1" the
    quantity 0.35 gives 0.3, and 0.3 gives 0.2, because 0.3 / 0.1 is
    2.9999999999999996 in binary64.  With step "0.24" (derived precision
    1) the quantity 0.25 gives 0.2, and 0.2 gives 0. *)
Theorem C8_not_idempotent :
  roundToStepFloor (lit 35 2) "0.1" = Some (lit 3 1) /\
  roundToStepFloor (lit 3 1) "0.1" = Some (lit 2 1) /\
  lit 2 1 <> lit 3 1 /\
  roundToStepFloor (lit 25 2) "0.24" = Some (lit 2 1) /\
  roundToStepFloor (lit 2 1) "0.24" = Some (of_Z 0) /\
  of_Z 0 <> lit 2 1.
Proof. vm_compute. repeat split; try reflexivity; discriminate. Qed.

(** *** The retry ladder

    The runs below are those of [placeMarketOrderSmart]: the function
    handed to [handlePrecisionError] is the submission of the rounded
    quantity, for any venue. *)

Section LadderFacts.
Context {W R : Type} (E : env W R).
Variables (symbol side : string) (reduceOnly : bool) (quantity : jsnum).

Lemma rejections_shift (n : nat) cache file ev evs (res : result (option R)) cache' file' :
  is_precision_rejection ev = true ->
  loop_run symbol side reduceOnly n cache file evs res cache' file' ->
  loop_run symbol side reduceOnly (S n) cache file (ev :: evs) res cache' file'.
Proof.
  intros Hev Hrun. destruct Hrun as [failed q written k r Hf Hk Hlen
                                   | failed Hf Hlen
                                   | failed q e Hf Hlen He
                                   | failed q e Hf Hlen He
                                   | failed Hf Hlen].
  - apply (LoopSucceeded symbol side reduceOnly (S n) cache file (ev :: failed)).
    + constructor; assumption.
    + lia.
    + simpl. lia.
  - apply (LoopFellThrough symbol side reduceOnly (S n) cache file (ev :: failed)).
    + constructor; assumption.
    + simpl. lia.
  - apply (LoopOtherError symbol side reduceOnly (S n) cache file (ev :: failed)).
    + constructor; assumption.
    + simpl. lia.
    + assumption.
  - apply (LoopTestFailed symbol side reduceOnly (S n) cache file (ev :: failed)).
    + constructor; assumption.
    + simpl. lia.
    + assumption.
  - apply (LoopRangeError symbol side reduceOnly (S n) cache file (ev :: failed)).
    + constructor; assumption.
    + simpl. lia.
Qed.

Lemma precisionLoop_step (k : nat) (m : machine) :
  precisionLoop E (S k) symbol quantity (submitWith E symbol side reduceOnly) m =
  let precision := Z.of_nat k in
  let q := roundQuantity quantity precision in
  match toFixed q precision with
  | None => (Throw RangeError, m)
  | Some _ =>
      match placeMarketOrder E symbol side q reduceOnly (world m) with
      | (Ok r, w') =>
          let '(written, w'') := writeFileSync E w' in
          let cache' := <[symbol := PNum precision]> (precisionCache m) in
          (Ok (Some r),
           mkMachine cache' (if written then cache' else precisionFile m) w''
             ((log m ++ [EvSubmit symbol side q reduceOnly None])
                ++ [EvSaveCache written]))
      | (Throw e, w') =>
          let m1 := mkMachine (precisionCache m) (precisionFile m) w'
                      (log m ++ [EvSubmit symbol side q reduceOnly (Some e)]) in
          match precision_test e with
          | Some true =>
              precisionLoop E k symbol quantity
                (submitWith E symbol side reduceOnly) m1
          | Some false => (Throw e, m1)
          | None => (Throw TypeError, m1)
          end
      end
  end.
Proof.
  cbn [precisionLoop]. unfold try_catch, bind, logRounded, ret, throw.
  cbv zeta.
  destruct (toFixed (roundQuantity quantity (Z.of_nat k)) (Z.of_nat k)); [|reflexivity].
  unfold submitWith, callPlaceMarketOrder.
  destruct (placeMarketOrder E symbol side (roundQuantity quantity (Z.of_nat k))
              reduceOnly (world m)) as [[r|e] w']; cbn [raised_by].
  - unfold setPrecision, savePrecisionCache. cbn.
    destruct (writeFileSync E w') as [written w'']. reflexivity.
  - destruct (precision_test e) as [[|]|]; reflexivity.
Qed.

Lemma precisionLoop_run (n : nat) :
  forall m : machine,
    let run := precisionLoop E n symbol quantity
                 (submitWith E symbol side reduceOnly) m in
    exists evs,
      log (snd run) = log m ++ evs /\
      loop_run symbol side reduceOnly n (precisionCache m) (precisionFile m)
        evs (fst run) (precisionCache (snd run)) (precisionFile (snd run)).
Proof.
  induction n as [|k IH]; intros m run; subst run.
  - exists []. split.
    + simpl. rewrite app_nil_r. reflexivity.
    + simpl. apply LoopFellThrough; [constructor | reflexivity].
  - rewrite precisionLoop_step. cbv zeta.
    destruct (toFixed (roundQuantity quantity (Z.of_nat k)) (Z.of_nat k)) as [text|].
    + destruct (placeMarketOrder E symbol side (roundQuantity quantity (Z.of_nat k))
                  reduceOnly (world m)) as [[r|e] w'].
      * destruct (writeFileSync E w') as [written w''].
        exists [EvSubmit symbol side (roundQuantity quantity (Z.of_nat k))
                  reduceOnly None; EvSaveCache written].
        split; [cbn; rewrite <- app_assoc; reflexivity|]. cbn.
        apply (LoopSucceeded symbol side reduceOnly (S k) _ _ [] _ written k r).
        -- constructor.
        -- lia.
        -- simpl. lia.
      * destruct (precision_test e) as [[|]|] eqn:He.
        -- set (m1 := mkMachine _ _ _ _).
           destruct (IH m1) as [evs [Hlog Hrun]].
           exists (EvSubmit symbol side (roundQuantity quantity (Z.of_nat k))
                     reduceOnly (Some e) :: evs).
           split.
           ++ rewrite Hlog. subst m1. cbn. rewrite <- app_assoc. reflexivity.
           ++ apply rejections_shift; [|exact Hrun].
              cbn. unfold is_precision_error. rewrite He. reflexivity.
        -- cbn.
           exists [EvSubmit symbol side (roundQuantity quantity (Z.of_nat k))
                     reduceOnly (Some e)].
           split; [reflexivity|].
           apply (LoopOtherError symbol side reduceOnly (S k) _ _ []).
           ++ constructor.
           ++ simpl. lia.
           ++ exact He.
        -- cbn.
           exists [EvSubmit symbol side (roundQuantity quantity (Z.of_nat k))
                     reduceOnly (Some e)].
           split; [reflexivity|].
           apply (LoopTestFailed symbol side reduceOnly (S k) _ _ []).
           ++ constructor.
           ++ simpl. lia.
           ++ exact He.
    + cbn.
      exists []. split; [rewrite app_nil_r; reflexivity|].
      apply (LoopRangeError symbol side reduceOnly (S k) _ _ []).
      * constructor.
      * simpl. lia.
Qed.

Lemma handlePrecisionError_run (m : machine) :
  let p0 := getPrecision (precisionCache m) symbol in
  let run := handlePrecisionError E symbol quantity
               (submitWith E symbol side reduceOnly) m in
  exists evs outcome,
    log (snd run) = log m ++ evs /\
    loop_run symbol side reduceOnly (Z.to_nat (p0 + 1))
      (precisionCache m) (precisionFile m) evs outcome
      (precisionCache (snd run)) (precisionFile (snd run)) /\
    fst run = match outcome with
              | Ok (Some r) => Ok r
              | Ok None => Throw (AllPrecisionsFailed p0 symbol)
              | Throw e => Throw e
              end.
Proof.
  intros p0 run.
  destruct (precisionLoop_run (Z.to_nat (p0 + 1)) m) as [evs [Hlog Hrun]].
  cbv zeta in Hlog, Hrun.
  exists evs.
  exists (fst (precisionLoop E (Z.to_nat (p0 + 1)) symbol quantity
                 (submitWith E symbol side reduceOnly) m)).
  subst run. unfold handlePrecisionError, bind, gets. fold p0.
  destruct (precisionLoop E (Z.to_nat (p0 + 1)) symbol quantity
              (submitWith E symbol side reduceOnly) m) as [[[r|]|e] m'];
    cbn in *; auto.
Qed.

Lemma submissions_app (l1 l2 : list event) :
  submissions (l1 ++ l2) = (submissions l1 + submissions l2)%nat.
Proof. unfold submissions. rewrite List.filter_app, length_app. reflexivity. Qed.

Lemma submissions_rejections (failed : list event) :
  Forall (fun ev => is_precision_rejection ev = true) failed ->
  submissions failed = length failed.
Proof.
  induction 1 as [|ev l Hev _ IH]; [reflexivity|].
  unfold submissions in *. cbn [List.filter].
  destruct ev as [? ? ? ? [e|]| |]; cbn in Hev; try discriminate.
  cbn. rewrite IH. reflexivity.
Qed.

Lemma loop_run_submissions (n : nat) cache file evs (res : result (option R)) cache' file' :
  loop_run symbol side reduceOnly n cache file evs res cache' file' ->
  (submissions evs <= n)%nat.
Proof.
  destruct 1 as [failed q written k r Hf Hk Hlen | failed Hf Hlen
                | failed q e Hf Hlen He | failed q e Hf Hlen He | failed Hf Hlen];
    rewrite ?submissions_app, (submissions_rejections failed Hf); cbn; lia.
Qed.

Lemma rejections_no_success (failed : list event) :
  Forall (fun ev => is_precision_rejection ev = true) failed ->
  Forall (fun ev => is_success ev = false) failed.
Proof.
  induction 1 as [|ev l Hev _ IH]; constructor; [|exact IH].
  destruct ev as [? ? ? ? [e|]| |]; cbn in *; congruence.
Qed.

Lemma loop_run_frame (n : nat) cache file evs (res : result (option R)) cache' file' :
  loop_run symbol side reduceOnly n cache file evs res cache' file' ->
  Forall (fun ev => is_success ev = false) evs ->
  cache' = cache /\ file' = file /\ exists e, res = Throw e \/ res = Ok None.
Proof.
  destruct 1 as [failed q written k r Hf Hk Hlen | failed Hf Hlen
                | failed q e Hf Hlen He | failed q e Hf Hlen He | failed Hf Hlen];
    intros Hno.
  - apply Forall_app in Hno. destruct Hno as [_ Hno].
    inversion Hno as [|? ? Hbad _]. cbn in Hbad. discriminate.
  - repeat split. exists RangeError. right. reflexivity.
  - repeat split. exists e. left. reflexivity.
  - repeat split. exists TypeError. left. reflexivity.
  - repeat split. exists RangeError. left. reflexivity.
Qed.

Lemma placeMarketOrderSmart_step (m : machine) :
  placeMarketOrderSmart E symbol side quantity reduceOnly m =
  let q0 := roundQuantity quantity (getPrecision (precisionCache m) symbol) in
  match placeMarketOrder E symbol side q0 reduceOnly (world m) with
  | (Ok r, w1) =>
      (Ok r, mkMachine (precisionCache m) (precisionFile m) w1
               (log m ++ [EvSubmit symbol side q0 reduceOnly None]))
  | (Throw error, w1) =>
      let m1 := mkMachine (precisionCache m) (precisionFile m) w1
                  (log m ++ [EvSubmit symbol side q0 reduceOnly (Some error)]) in
      match precision_test error with
      | Some true =>
        match getExchangeInfo E w1 with
        | (Throw _, w2) =>
            handlePrecisionError E symbol quantity
              (submitWith E symbol side reduceOnly)
              (mkMachine (precisionCache m) (precisionFile m) w2
                 (log m1 ++ [EvExchangeInfo]))
        | (Ok exchangeInfo, w2) =>
            let detected := detectPrecisionFromExchangeInfo exchangeInfo symbol in
            let cache2 := <[symbol := detected]> (precisionCache m) in
            let '(written, w3) := writeFileSync E w2 in
            let file2 := if written then cache2 else precisionFile m in
            let log2 := (log m1 ++ [EvExchangeInfo]) ++ [EvSaveCache written] in
            let q1 := roundQuantity quantity (getPrecision cache2 symbol) in
            match placeMarketOrder E symbol side q1 reduceOnly w3 with
            | (Ok r, w4) =>
                (Ok r, mkMachine cache2 file2 w4
                         (log2 ++ [EvSubmit symbol side q1 reduceOnly None]))
            | (Throw e2, w4) =>
                handlePrecisionError E symbol quantity
                  (submitWith E symbol side reduceOnly)
                  (mkMachine cache2 file2 w4
                     (log2 ++ [EvSubmit symbol side q1 reduceOnly (Some e2)]))
            end
        end
      | Some false => (Throw error, m1)
      | None => (Throw TypeError, m1)
      end
  end.
Proof.
  unfold placeMarketOrderSmart.
  unfold try_catch at 1. unfold bind at 1. unfold getSmartQuantity, gets.
  unfold callPlaceMarketOrder at 1. cbv zeta.
  destruct (placeMarketOrder E symbol side
              (roundQuantity quantity (getPrecision (precisionCache m) symbol))
              reduceOnly (world m)) as [[r|error] w1]; cbn [raised_by];
    [reflexivity|].
  destruct (precision_test error) as [[|]|]; [|reflexivity|reflexivity].
  unfold bind at 1. unfold try_catch at 1. unfold bind at 1.
  unfold callGetExchangeInfo at 1. cbn [world precisionCache precisionFile log].
  destruct (getExchangeInfo E w1) as [[exchangeInfo|e1] w2].
  - unfold bind at 1. unfold setPrecision, savePrecisionCache.
    cbn [world precisionCache precisionFile log].
    destruct (writeFileSync E w2) as [written w3].
    unfold bind at 1. cbn [world precisionCache precisionFile log].
    unfold bind at 1. unfold callPlaceMarketOrder at 1.
    cbn [world precisionCache precisionFile log].
    destruct (placeMarketOrder E symbol side _ reduceOnly w3) as [[r|e2] w4];
      cbn [raised_by]; reflexivity.
  - unfold ret at 1. reflexivity.
Qed.
End LadderFacts.

Lemma loop_run_success {R : Type} (symbol side : string) (reduceOnly : bool) (n : nat)
    cache file evs (r : R) cache' file' :
  loop_run symbol side reduceOnly n cache file evs (Ok (Some r)) cache' file' ->
  exists k, (k < n)%nat /\ submissions evs = (n - k)%nat /\
            cache' = <[symbol := PNum (Z.of_nat k)]> cache.
Proof.
  intros Hrun. inversion Hrun as [failed q written k r' Hf Hk Hlen | | | |]; subst.
  exists k. split; [exact Hk|]. split; [|reflexivity].
  rewrite submissions_app, (submissions_rejections failed Hf), Hlen. cbn. lia.
Qed.

(** What the next resolution sees after a ladder that succeeded: the
    precision it succeeded at when that is not zero, and the registry or
    heuristic value when it is zero. *)
Lemma learning_after_success {W R : Type} (E : env W R) (symbol side : string)
    (reduceOnly : bool) (quantity : jsnum) (m : machine) (r : R) :
  let p0 := getPrecision (precisionCache m) symbol in
  let run := handlePrecisionError E symbol quantity
               (submitWith E symbol side reduceOnly) m in
  fst run = Ok r ->
  exists p, 0 <= p <= p0 /\
    precisionCache (snd run) = <[symbol := PNum p]> (precisionCache m) /\
    getPrecision (precisionCache (snd run)) symbol =
      if p =? 0
      then (if isSymbolInDatabase symbol then getPrecisionFromDatabase symbol
            else patternPrecision symbol)
      else p.
Proof.
  intros p0 run Hok.
  destruct (handlePrecisionError_run E symbol side reduceOnly quantity m)
    as [evs [outcome [Hlog [Hrun Hres]]]].
  fold p0 in Hrun, Hres. fold run in Hlog, Hrun, Hres.
  rewrite Hok in Hres.
  destruct outcome as [[r'|]|e]; try discriminate.
  destruct (loop_run_success _ _ _ _ _ _ _ _ _ _ Hrun) as [k [Hk [_ Hc]]].
  exists (Z.of_nat k). split; [lia|]. split; [exact Hc|].
  rewrite Hc. destruct (Z.eqb_spec (Z.of_nat k) 0) as [Hz|Hz].
  - rewrite Hz. apply getPrecision_learned_zero.
  - apply getPrecision_learned. exact Hz.
Qed.

(** C2. The ladder that starts at [p0 = getPrecision(symbol)] calls the
    submit function at most [p0 + 1] times (none when [p0] is negative)
    and ends with a result or a thrown error; when it ends with a result
    at precision [p] it has made [p0 - p + 1] calls and [p] is stored for
    the symbol.  On BTCUSDT, starting at 3 and rejected for precision at
    3, 2 and 1, it submits 7.812, 7.81, 7.8 and 7, four times in all,
    returns the fourth answer and stores 0 for the symbol in the cache
    and in the file. *)
Theorem C2_ladder_attempt_bound :
  (forall (W R : Type) (E : env W R) (symbol side : string) (reduceOnly : bool)
          (quantity : jsnum) (m : machine),
      let p0 := getPrecision (precisionCache m) symbol in
      let run := handlePrecisionError E symbol quantity
                   (submitWith E symbol side reduceOnly) m in
      (submissions (log (snd run)) <= submissions (log m) + Z.to_nat (p0 + 1))%nat /\
      match fst run with
      | Ok _ =>
          exists p, 0 <= p <= p0 /\
            submissions (log (snd run)) =
              (submissions (log m) + Z.to_nat (p0 - p + 1))%nat /\
            precisionCache (snd run) !! symbol = Some (PNum p)
      | Throw _ => True
      end) /\
  (let run := handlePrecisionError wholeVenue "BTCUSDT" (lit 78125 4)
                (submitWith wholeVenue "BTCUSDT" "BUY" false) (freshMachine tt) in
   getPrecision (precisionCache (freshMachine tt)) "BTCUSDT" = 3 /\
   log (snd run) =
     [ EvSubmit "BTCUSDT" "BUY" (lit 7812 3) false (Some precisionRejected);
       EvSubmit "BTCUSDT" "BUY" (lit 781 2) false (Some precisionRejected);
       EvSubmit "BTCUSDT" "BUY" (lit 78 1) false (Some precisionRejected);
       EvSubmit "BTCUSDT" "BUY" (of_Z 7) false None;
       EvSaveCache true ] /\
   submissions (log (snd run)) = 4%nat /\
   fst run = Ok (of_Z 7) /\
   precisionCache (snd run) !! "BTCUSDT"%string = Some (PNum 0) /\
   precisionFile (snd run) !! "BTCUSDT"%string = Some (PNum 0)).
Proof.
  split.
  - intros W R E symbol side reduceOnly quantity m p0 run.
    destruct (handlePrecisionError_run E symbol side reduceOnly quantity m)
      as [evs [outcome [Hlog [Hrun Hres]]]].
    fold p0 in Hrun, Hres. fold run in Hlog, Hrun, Hres.
    split.
    + rewrite Hlog, submissions_app.
      pose proof (loop_run_submissions symbol side reduceOnly _ _ _ _ _ _ _ Hrun).
      lia.
    + rewrite Hres. destruct outcome as [[r|]|e]; try exact I.
      destruct (loop_run_success _ _ _ _ _ _ _ _ _ _ Hrun) as [k [Hk [Hsub Hc]]].
      exists (Z.of_nat k). split; [lia|]. split.
      * rewrite Hlog, submissions_app, Hsub. lia.
      * rewrite Hc. apply lookup_insert_eq.
  - vm_compute. repeat split; reflexivity.
Qed.




(** A smart placement in which no submission goes through and the cache
    gains an entry: the detection pass writes the detected precision
    before its own submission is tried. *)
Lemma C5_counterexample :
  let m := freshMachine tt in
  let run := placeMarketOrderSmart rejectingVenue "FOOUSDT" "BUY" (lit 78125 4)
               false m in
  Forall (fun ev => is_success ev = false) (log (snd run)) /\
  precisionCache m !! "FOOUSDT"%string = None /\
  precisionCache (snd run) !! "FOOUSDT"%string = Some (PNum 8) /\
  precisionCache (snd run) <> precisionCache m.
Proof.
  cbv zeta. split; [vm_compute; repeat constructor|].
  split; [reflexivity|].
  assert (H : precisionCache
                (snd (placeMarketOrderSmart rejectingVenue "FOOUSDT" "BUY"
                        (lit 78125 4) false (freshMachine tt)))
              !! "FOOUSDT"%string = Some (PNum 8)) by (vm_compute; reflexivity).
  split; [exact H|].
  intros Heq. rewrite Heq in H. discriminate H.
Qed.

(** C5 (amended). When no submission goes through, the ladder of
    [handlePrecisionError] leaves the cache and its file as they were.
    A whole [placeMarketOrderSmart] in which no submission goes through
    leaves them as they were too, except when its first attempt was
    rejected for precision and [getExchangeInfo] answered: then the cache
    is the old one with the entry of the symbol overwritten by the
    precision detected in that answer, and the file is that cache when
    the write went through and the old file when it did not. *)
Theorem C5_cache_frame (W R : Type) (E : env W R) (symbol side : string)
    (reduceOnly : bool) (quantity : jsnum) (m : machine) :
  (let run := handlePrecisionError E symbol quantity
                (submitWith E symbol side reduceOnly) m in
   exists evs,
     log (snd run) = log m ++ evs /\
     (Forall (fun ev => is_success ev = false) evs ->
      precisionCache (snd run) = precisionCache m /\
      precisionFile (snd run) = precisionFile m)) /\
  (let p0 := getPrecision (precisionCache m) symbol in
   let run := placeMarketOrderSmart E symbol side quantity reduceOnly m in
   let unchanged :=
     precisionCache (snd run) = precisionCache m /\
     precisionFile (snd run) = precisionFile m in
   exists evs,
     log (snd run) = log m ++ evs /\
     (Forall (fun ev => is_success ev = false) evs ->
      match placeMarketOrder E symbol side (roundQuantity quantity p0)
              reduceOnly (world m) with
      | (Ok _, _) => unchanged
      | (Throw error, w1) =>
          if is_precision_error error then
            match getExchangeInfo E w1 with
            | (Throw _, _) => unchanged
            | (Ok exchangeInfo, w2) =>
                let detected :=
                  <[symbol := detectPrecisionFromExchangeInfo exchangeInfo symbol]>
                    (precisionCache m) in
                precisionCache (snd run) = detected /\
                precisionFile (snd run) =
                  if fst (writeFileSync E w2) then detected else precisionFile m
            end
          else unchanged
      end)).
Proof.
  split.
  - intros run.
    destruct (handlePrecisionError_run E symbol side reduceOnly quantity m)
      as [evs [outcome [Hlog [Hrun _]]]].
    exists evs. split; [exact Hlog|]. intros Hno.
    destruct (loop_run_frame symbol side reduceOnly _ _ _ _ _ _ _ Hrun Hno)
      as [Hc [Hf _]].
    split; assumption.
  - intros p0 run unchanged. subst run unchanged.
    rewrite placeMarketOrderSmart_step. cbv zeta.
    cbn [precisionCache precisionFile log world]. fold p0.
    destruct (placeMarketOrder E symbol side (roundQuantity quantity p0)
                reduceOnly (world m)) as [[r|error] w1].
    + eexists. split; [reflexivity|]. intros _. split; reflexivity.
    + unfold is_precision_error.
      destruct (precision_test error) as [[|]|];
        [| eexists; split; [reflexivity|]; intros _; split; reflexivity
         | eexists; split; [reflexivity|]; intros _; split; reflexivity].
      destruct (getExchangeInfo E w1) as [[exchangeInfo|e1] w2].
      * destruct (writeFileSync E w2) as [written w3].
        destruct (placeMarketOrder E symbol side _ reduceOnly w3)
          as [[r|e2] w4].
        -- eexists. split; [cbn; rewrite <- !app_assoc; reflexivity|].
           intros _. cbn. split; reflexivity.
        -- match goal with
           | |- context [handlePrecisionError E symbol quantity _ ?m2] =>
               destruct (handlePrecisionError_run E symbol side reduceOnly
                           quantity m2) as [evs [outcome [Hlog [Hrun _]]]]
           end.
           cbn [precisionCache precisionFile log] in Hlog, Hrun.
           eexists. split.
           ++ rewrite Hlog. rewrite <- !app_assoc. reflexivity.
           ++ intros Hno.
              apply Forall_app in Hno. destruct Hno as [_ Hno].
              apply Forall_app in Hno. destruct Hno as [_ Hno].
              apply Forall_app in Hno. destruct Hno as [_ Hno].
              apply Forall_app in Hno. destruct Hno as [_ Hno].
              destruct (loop_run_frame symbol side reduceOnly _ _ _ _ _ _ _
                          Hrun Hno) as [Hc [Hf _]].
              cbn [fst]. split; [exact Hc | exact Hf].
      * match goal with
        | |- context [handlePrecisionError E symbol quantity _ ?m2] =>
            destruct (handlePrecisionError_run E symbol side reduceOnly
                        quantity m2) as [evs [outcome [Hlog [Hrun _]]]]
        end.
        cbn [precisionCache precisionFile log] in Hlog, Hrun.
        eexists. split.
        -- rewrite Hlog. rewrite <- !app_assoc. reflexivity.
        -- intros Hno.
           apply Forall_app in Hno. destruct Hno as [_ Hno].
           apply Forall_app in Hno. destruct Hno as [_ Hno].
           destruct (loop_run_frame symbol side reduceOnly _ _ _ _ _ _ _
                       Hrun Hno) as [Hc [Hf _]].
           split; assumption.
Qed.

Lemma C5_cache_frame_witness :
  let run := placeMarketOrderSmart rejectingVenue "FOOUSDT" "BUY" (lit 78125 4)
               false (freshMachine tt) in
  Forall (fun ev => is_success ev = false) (log (snd run)) /\
  precisionCache (snd run) = <["FOOUSDT"%string := PNum 8]> ∅ /\
  precisionFile (snd run) = <["FOOUSDT"%string := PNum 8]> ∅.
Proof.
  cbv zeta.
  assert (Hno : Forall (fun ev => is_success ev = false)
                  (log (snd (placeMarketOrderSmart rejectingVenue "FOOUSDT" "BUY"
                               (lit 78125 4) false (freshMachine tt)))))
    by (vm_compute; repeat constructor).
  split; [exact Hno|].
  destruct (C5_cache_frame unit jsnum rejectingVenue "FOOUSDT" "BUY" false
              (lit 78125 4) (freshMachine tt)) as [_ [evs [Hlog Hframe]]].
  cbn [log freshMachine app] in Hlog. rewrite <- Hlog in Hframe.
  exact (Hframe Hno).
Defined.

Section Exhaustion.
Context {W R : Type} (E : env W R).
Variables (symbol side : string) (reduceOnly : bool) (quantity : jsnum).




End Exhaustion.




(** *** Ranges of the precision values *)

Lemma database_precisions (key : string) (info : entry) :
  STEP_SIZE_DATABASE !! key = Some info -> 0 <= precision info <= 3.
Proof.
  intros Hlook. unfold STEP_SIZE_DATABASE in Hlook.
  apply elem_of_list_to_map_2 in Hlook.
  apply list_elem_of_In in Hlook.
  assert (Hall : forallb (fun kv => (0 <=? precision (snd kv)) && (precision (snd kv) <=? 3))
                   STEP_SIZE_ENTRIES = true) by (vm_compute; reflexivity).
  rewrite forallb_forall in Hall. specialize (Hall _ Hlook). cbn in Hall.
  apply andb_prop in Hall. destruct Hall as [H0 H3].
  apply Z.leb_le in H0. apply Z.leb_le in H3. lia.
Qed.

Lemma getPrecisionFromDatabase_range (symbol : string) :
  0 <= getPrecisionFromDatabase symbol <= 3.
Proof.
  unfold getPrecisionFromDatabase, getStepSizeInfo.
  destruct (STEP_SIZE_DATABASE !! toUpperCase symbol) as [info|] eqn:Hlook.
  - exact (database_precisions _ _ Hlook).
  - lia.
Qed.

Lemma patternPrecision_range (symbol : string) : 0 <= patternPrecision symbol <= 3.
Proof.
  unfold patternPrecision.
  repeat match goal with
         | |- context [if ?b then _ else _] => destruct b
         end; lia.
Qed.

Lemma calculatePrecisionFromStepSize_nonneg (stepSize : string) :
  match calculatePrecisionFromStepSize stepSize with
  | PNum z => 0 <= z
  | PNaN => True
  end.
Proof.
  unfold calculatePrecisionFromStepSize, precision_of_step.
  destruct (parseFloat stepSize) as [|[|]|q]; try exact I; try lia.
  destruct (Qle_bool q 0); lia.
Qed.

Lemma detectPrecision_nonneg (exchangeInfo : exchange_info) (symbol : string) :
  match detectPrecisionFromExchangeInfo exchangeInfo symbol with
  | PNum z => 0 <= z
  | PNaN => True
  end.
Proof.
  unfold detectPrecisionFromExchangeInfo.
  destruct (match symbols exchangeInfo with Some l => _ | None => None end)
    as [info|]; [|cbn; lia].
  destruct (if string_truthy _ then _ else _) as [s|]; [|cbn; lia].
  destruct (String.eqb s ""); [cbn; lia|].
  apply calculatePrecisionFromStepSize_nonneg.
Qed.

(** C4. Detection leaves the range 0..4.  A lot-size step of 0.00000001
    (the default step of [extractFilters]) is detected as precision 8;
    [placeMarketOrderSmart] stores the 8 as it is, in the cache and in
    the file, and the next [getPrecision] returns it.  A step size that
    is no number gives NaN, not the default 3. *)
Theorem C4_detected_precision_leaves_range :
  let run := placeMarketOrderSmart rejectingVenue "FOOUSDT" "BUY" (lit 78125 4)
               false (freshMachine tt) in
  calculatePrecisionFromStepSize "0.00000001" = PNum 8 /\
  detectPrecisionFromExchangeInfo fineStepInfo "FOOUSDT" = PNum 8 /\
  precisionCache (snd run) !! "FOOUSDT"%string = Some (PNum 8) /\
  precisionFile (snd run) !! "FOOUSDT"%string = Some (PNum 8) /\
  getPrecision (precisionCache (snd run)) "FOOUSDT" = 8 /\
  ~ in_range 0 4 (PNum 8) /\
  calculatePrecisionFromStepSize "abc" = PNaN /\
  ~ in_range 0 4 PNaN.
Proof.
  cbv zeta. repeat split; try (vm_compute; reflexivity).
  - cbn. lia.
  - cbn. tauto.
Qed.

(* ===================================================================== *)
(** ** Further properties *)
(* ===================================================================== *)

Import DatabaseQueries Formatting Positions FurtherVocabulary.

(** *** The registry *)

(** X1. For every registered symbol the precision of the registry is the
    one that [calculatePrecisionFromStepSize] derives from the registered
    step size. *)
Theorem registry_agrees_with_step_formula (symbol : string) :
  isSymbolInDatabase symbol = true ->
  exists step,
    getStepSizeFromDatabase symbol = Some step /\
    calculatePrecisionFromStepSize step = PNum (getPrecisionFromDatabase symbol).
Proof.
  unfold isSymbolInDatabase, getStepSizeFromDatabase, getPrecisionFromDatabase,
    getStepSizeInfo.
  intros Hin. apply bool_decide_eq_true in Hin. destruct Hin as [info Hinfo].
  rewrite Hinfo. exists (stepSize info). split; [reflexivity|].
  apply database_lookup_entries in Hinfo.
  exact (registry_precision_matches_step _ _ Hinfo).
Qed.

Lemma registry_agrees_with_step_formula_witness :
  isSymbolInDatabase "xrpusdt" = true /\
  exists step,
    getStepSizeFromDatabase "xrpusdt" = Some step /\
    calculatePrecisionFromStepSize step = PNum (getPrecisionFromDatabase "xrpusdt").
Proof.
  assert (H : isSymbolInDatabase "xrpusdt" = true) by (vm_compute; reflexivity).
  split; [exact H|]. exact (registry_agrees_with_step_formula "xrpusdt" H).
Defined.

Lemma upper_case_not_inherited (symbol : string) :
  inherited_member (toUpperCase symbol) = false.
Proof.
  destruct (inherited_member (toUpperCase symbol)) eqn:Hin; [exfalso | reflexivity].
  unfold inherited_member in Hin. apply existsb_exists in Hin.
  destruct Hin as [name [Hname Heq]]. apply String.eqb_eq in Heq.
  assert (Hfix : toUpperCase name = name).
  { rewrite <- Heq. apply toUpperCase_idempotent. }
  cbn in Hname.
  repeat (destruct Hname as [<- | Hname]; [vm_compute in Hfix; discriminate Hfix|]).
  exact Hname.
Qed.

(** X2. The registry lookups and the substring rules do not depend on
    the letter case of the symbol, and no upper-cased symbol is the name
    of a member that the registry object inherits.  With an empty cache
    [getPrecision] does not depend on the letter case either, for a
    symbol that is not the name of a member that the cache object
    inherits. *)
Theorem resolution_ignores_case (symbol : string) :
  isSymbolInDatabase (toUpperCase symbol) = isSymbolInDatabase symbol /\
  getStepSizeInfo (toUpperCase symbol) = getStepSizeInfo symbol /\
  getPrecisionFromDatabase (toUpperCase symbol) = getPrecisionFromDatabase symbol /\
  patternPrecision (toUpperCase symbol) = patternPrecision symbol /\
  inherited_member (toUpperCase symbol) = false /\
  (inherited_member symbol = false ->
   getPrecision ∅ (toUpperCase symbol) = getPrecision ∅ symbol).
Proof.
  assert (Hi : isSymbolInDatabase (toUpperCase symbol) = isSymbolInDatabase symbol).
  { unfold isSymbolInDatabase. rewrite toUpperCase_idempotent. reflexivity. }
  assert (Hp : getPrecisionFromDatabase (toUpperCase symbol) =
               getPrecisionFromDatabase symbol).
  { unfold getPrecisionFromDatabase, getStepSizeInfo.
    rewrite toUpperCase_idempotent. reflexivity. }
  assert (Hh : patternPrecision (toUpperCase symbol) = patternPrecision symbol).
  { unfold patternPrecision. rewrite toUpperCase_idempotent. reflexivity. }
  split; [exact Hi|]. split.
  { unfold getStepSizeInfo. rewrite toUpperCase_idempotent. reflexivity. }
  split; [exact Hp|]. split; [exact Hh|].
  split; [apply upper_case_not_inherited|]. intros _.
  rewrite !getPrecision_fallback by (apply cachedPrecision_absent, lookup_empty).
  rewrite Hi, Hp, Hh. reflexivity.
Qed.

Lemma resolution_ignores_case_witness :
  inherited_member "dotusdt" = false /\
  getPrecision ∅ "DOTUSDT" = getPrecision ∅ "dotusdt" /\
  getPrecision ∅ "dotusdt" = 0 /\
  inherited_member "constructor" = true.
Proof.
  assert (H : inherited_member "dotusdt" = false) by reflexivity.
  split; [exact H|]. split; [|split; vm_compute; reflexivity].
  exact (proj2 (proj2 (proj2 (proj2 (proj2 (resolution_ignores_case "dotusdt"))))) H).
Defined.

Lemma getAllSymbols_lookup (symbol : string) :
  In symbol getAllSymbols <-> is_Some (STEP_SIZE_DATABASE !! symbol).
Proof.
  unfold getAllSymbols. rewrite in_map_iff. split.
  - intros [[key info] [Hk Hin]]. cbn in Hk. subst key.
    exists info. apply database_lookup_entries. exact Hin.
  - intros [info Hinfo]. exists (symbol, info). split; [reflexivity|].
    apply database_lookup_entries. exact Hinfo.
Qed.

(** X3. [getSymbolsByPrecision(p)] lists exactly the symbols of
    [getAllSymbols()] whose registry precision is [p]. *)
Theorem getSymbolsByPrecision_spec (symbol : string) (wanted : Z) :
  In symbol (getSymbolsByPrecision wanted) <->
  In symbol getAllSymbols /\ getPrecisionFromDatabase symbol = wanted.
Proof.
  unfold getSymbolsByPrecision. rewrite in_map_iff. split.
  - intros [[key info] [Hk Hin]]. cbn in Hk. subst key.
    apply filter_In in Hin. destruct Hin as [Hin Hp]. cbn in Hp.
    apply Z.eqb_eq in Hp. split.
    + apply getAllSymbols_lookup. exists info.
      apply database_lookup_entries. exact Hin.
    + unfold getPrecisionFromDatabase, getStepSizeInfo.
      rewrite (database_keys_upper _ _ Hin).
      apply database_lookup_entries in Hin. rewrite Hin. exact Hp.
  - intros [Hall Hp]. apply getAllSymbols_lookup in Hall.
    destruct Hall as [info Hinfo].
    pose proof (proj1 (database_lookup_entries _ _) Hinfo) as Hin.
    exists (symbol, info). split; [reflexivity|].
    apply filter_In. split; [exact Hin|]. cbn.
    unfold getPrecisionFromDatabase, getStepSizeInfo in Hp.
    rewrite (database_keys_upper _ _ Hin), Hinfo in Hp.
    apply Z.eqb_eq. exact Hp.
Qed.

Lemma isSymbolInDatabase_getAllSymbols (symbol : string) :
  isSymbolInDatabase symbol = true <-> In (toUpperCase symbol) getAllSymbols.
Proof.
  unfold isSymbolInDatabase. rewrite bool_decide_eq_true.
  symmetry. apply getAllSymbols_lookup.
Qed.

(** Counting in a list of entries. *)
Lemma countPrecision_fold (infos : list entry) :
  forall (stats : gmap Z nat) (p : Z),
    default 0%nat (List.fold_left countPrecision infos stats !! p) =
    (default 0%nat (stats !! p) +
     length (List.filter (fun info => Z.eqb (precision info) p) infos))%nat.
Proof.
  induction infos as [|info infos IH]; intros stats p; cbn [List.fold_left List.filter].
  - cbn. lia.
  - rewrite IH. unfold countPrecision at 1.
    destruct (Z.eqb_spec (precision info) p) as [->|Hne].
    + rewrite lookup_insert_eq. cbn. lia.
    + rewrite lookup_insert_ne by exact Hne. lia.
Qed.

Lemma countPrecision_positive (infos : list entry) :
  forall (stats : gmap Z nat) (p : Z),
    (forall q n, stats !! q = Some n -> (0 < n)%nat) ->
    forall n, List.fold_left countPrecision infos stats !! p = Some n -> (0 < n)%nat.
Proof.
  induction infos as [|info infos IH]; intros stats p Hpos n; cbn [List.fold_left].
  - apply Hpos.
  - apply IH. intros q k. unfold countPrecision.
    destruct (Z.eqb_spec (precision info) q) as [->|Hne].
    + rewrite lookup_insert_eq. intros [= <-]. lia.
    + rewrite lookup_insert_ne by exact Hne. apply Hpos.
Qed.

Lemma filter_map_snd (p : Z) (l : list (string * entry)) :
  length (List.filter (fun info => precision info =? p) (List.map snd l)) =
  length (List.map fst (List.filter (fun kv => precision (snd kv) =? p) l)).
Proof.
  induction l as [|[k e] l IH]; [reflexivity|].
  cbn. destruct (precision e =? p); cbn; rewrite IH; reflexivity.
Qed.

Lemma stats_of_entries (l : list (string * entry)) (p : Z) :
  List.fold_left countPrecision (List.map snd l) ∅ !! p =
    match length (List.map fst
                    (List.filter (fun kv => precision (snd kv) =? p) l)) with
    | O => None
    | n => Some n
    end.
Proof.
  pose proof (countPrecision_fold (List.map snd l) ∅ p) as Hc.
  rewrite lookup_empty, filter_map_snd in Hc.
  change (default 0%nat None) with 0%nat in Hc. rewrite Nat.add_0_l in Hc.
  destruct (List.fold_left countPrecision (List.map snd l) ∅ !! p) as [n|] eqn:Hs.
  - change (default 0%nat (Some n)) with n in Hc. rewrite <- Hc.
    assert (0 < n)%nat.
    { apply (countPrecision_positive (List.map snd l) ∅ p);
        [intros q k; rewrite lookup_empty; discriminate | exact Hs]. }
    destruct n; [lia | reflexivity].
  - change (default 0%nat None) with 0%nat in Hc. rewrite <- Hc. reflexivity.
Qed.

(** X4. [getPrecisionStats()] has, under each precision, the number of
    symbols that [getSymbolsByPrecision] lists for it, and no key for a
    precision without symbols. *)
Theorem getPrecisionStats_counts (p : Z) :
  getPrecisionStats !! p =
    match length (getSymbolsByPrecision p) with
    | O => None
    | n => Some n
    end.
Proof. exact (stats_of_entries STEP_SIZE_ENTRIES p). Qed.

(** *** Substrings *)

Lemma prefix_append (needle rest : string) :
  String.prefix needle (String.append needle rest) = true.
Proof.
  induction needle as [|c needle IH]; [destruct rest; reflexivity|].
  change (String.append (String c needle) rest) with (String c (String.append needle rest)).
  change (String.prefix (String c needle) (String c (String.append needle rest)))
    with (if Ascii.ascii_dec c c then String.prefix needle (String.append needle rest)
          else false).
  destruct (Ascii.ascii_dec c c) as [_|Hne]; [exact IH | contradiction].
Qed.

Lemma prefix_split (needle hay : string) :
  String.prefix needle hay = true -> exists rest, hay = String.append needle rest.
Proof.
  revert hay. induction needle as [|c needle IH]; intros hay H.
  - exists hay. reflexivity.
  - destruct hay as [|d hay]; [discriminate|].
    change (String.prefix (String c needle) (String d hay))
      with (if Ascii.ascii_dec c d then String.prefix needle hay else false) in H.
    destruct (Ascii.ascii_dec c d) as [->|]; [|discriminate].
    destruct (IH hay H) as [rest ->]. exists rest. reflexivity.
Qed.

Lemma includes_prefix (needle hay : string) :
  String.prefix needle hay = true -> includes needle hay = true.
Proof. intros H. destruct hay; cbn [includes]; rewrite H; reflexivity. Qed.

(** [includes] is the substring relation. *)
Lemma includes_spec (needle hay : string) :
  includes needle hay = true <->
  exists before after, hay = String.append before (String.append needle after).
Proof.
  split.
  - induction hay as [|c hay IH]; cbn [includes].
    + destruct (String.prefix needle "") eqn:Hp; [|discriminate].
      intros _. destruct (prefix_split _ _ Hp) as [rest Hrest].
      exists ""%string, rest. exact Hrest.
    + destruct (String.prefix needle (String c hay)) eqn:Hp.
      * intros _. destruct (prefix_split _ _ Hp) as [rest Hrest].
        exists ""%string, rest. exact Hrest.
      * intros H. destruct (IH H) as [before [after ->]].
        exists (String c before), after. reflexivity.
  - intros [before [after ->]].
    induction before as [|c before IH].
    + change (String.append "" (String.append needle after))
        with (String.append needle after).
      apply includes_prefix, prefix_append.
    + change (String.append (String c before) (String.append needle after))
        with (String c (String.append before (String.append needle after))).
      cbn [includes]. rewrite IH.
      destruct (String.prefix needle _); reflexivity.
Qed.

(** X5. The substring rules, over real substrings of the upper-cased
    symbol: 3 exactly when BTC or ETH occurs; 1 exactly when XRP occurs
    and none of BTC, ETH, ASTER, SOL, BNB does; 0 exactly when ADA, DOGE
    or AVAX occurs and none of the names before does. *)
Theorem heuristic_by_substring (symbol : string) :
  let mentions name :=
    exists before after,
      toUpperCase symbol = String.append before (String.append name after) in
  (patternPrecision symbol = 3 <-> mentions "BTC"%string \/ mentions "ETH"%string) /\
  (patternPrecision symbol = 1 <->
   ~ (mentions "BTC"%string \/ mentions "ETH"%string) /\
   ~ (mentions "ASTER"%string \/ mentions "SOL"%string \/ mentions "BNB"%string) /\
   mentions "XRP"%string) /\
  (patternPrecision symbol = 0 <->
   ~ (mentions "BTC"%string \/ mentions "ETH"%string) /\
   ~ (mentions "ASTER"%string \/ mentions "SOL"%string \/ mentions "BNB"%string) /\
   ~ mentions "XRP"%string /\
   (mentions "ADA"%string \/ mentions "DOGE"%string \/ mentions "AVAX"%string)).
Proof.
  intros mentions.
  assert (Hm : forall name, includes name (toUpperCase symbol) = true <-> mentions name)
    by (intros name; apply includes_spec).
  assert (H1 : includes "BTC" (toUpperCase symbol) || includes "ETH" (toUpperCase symbol)
               = true <-> mentions "BTC"%string \/ mentions "ETH"%string).
  { rewrite orb_true_iff, !Hm. reflexivity. }
  assert (H2 : includes "ASTER" (toUpperCase symbol) || includes "SOL" (toUpperCase symbol)
               || includes "BNB" (toUpperCase symbol) = true <->
               mentions "ASTER"%string \/ mentions "SOL"%string \/ mentions "BNB"%string).
  { rewrite !orb_true_iff, !Hm. tauto. }
  assert (H3 : includes "XRP" (toUpperCase symbol) = true <-> mentions "XRP"%string)
    by apply Hm.
  assert (H4 : includes "ADA" (toUpperCase symbol) || includes "DOGE" (toUpperCase symbol)
               || includes "AVAX" (toUpperCase symbol) = true <->
               mentions "ADA"%string \/ mentions "DOGE"%string \/ mentions "AVAX"%string).
  { rewrite !orb_true_iff, !Hm. tauto. }
  unfold patternPrecision. cbv zeta.
  revert H1 H2 H3 H4.
  generalize (includes "BTC" (toUpperCase symbol) || includes "ETH" (toUpperCase symbol)).
  generalize (includes "ASTER" (toUpperCase symbol) || includes "SOL" (toUpperCase symbol)
              || includes "BNB" (toUpperCase symbol)).
  generalize (includes "XRP" (toUpperCase symbol)).
  generalize (includes "ADA" (toUpperCase symbol) || includes "DOGE" (toUpperCase symbol)
              || includes "AVAX" (toUpperCase symbol)).
  generalize (mentions "BTC"%string \/ mentions "ETH"%string).
  generalize (mentions "ASTER"%string \/ mentions "SOL"%string \/ mentions "BNB"%string).
  generalize (mentions "XRP"%string).
  generalize (mentions "ADA"%string \/ mentions "DOGE"%string \/ mentions "AVAX"%string).
  clear. intros P4 P3 P2 P1 b4 b3 b2 b1 H1 H2 H3 H4.
  destruct b1, b2, b3, b4; (split; [|split]); split; intros;
    try discriminate; intuition congruence.
Qed.

(** *** Power-of-ten steps *)

Lemma pow10_pos (e : Z) : (0 < pow10 e)%Q.
Proof.
  unfold pow10. destruct (Z.leb_spec 0 e).
  - rewrite <- (Zlt_Qlt 0). apply Z.pow_pos_nonneg; lia.
  - apply Qinv_lt_0_compat. rewrite <- (Zlt_Qlt 0). apply Z.pow_pos_nonneg; lia.
Qed.

Lemma pow10_succ (e : Z) : (pow10 (e + 1) == 10 * pow10 e)%Q.
Proof.
  destruct (Z_lt_le_dec e 0) as [Hneg|Hpos].
  - destruct (Z.eq_dec e (-1)) as [->|Hne].
    + vm_compute. reflexivity.
    + rewrite (pow10_neg_exp (e + 1)) by lia. rewrite (pow10_neg_exp e) by lia.
      replace (- e) with ((- (e + 1)) + 1) by lia.
      rewrite Z.pow_add_r by lia. rewrite inject_Z_mult.
      assert (Hp : (0 < inject_Z (10 ^ (- (e + 1))))%Q).
      { rewrite <- (Zlt_Qlt 0). apply Z.pow_pos_nonneg; lia. }
      change (inject_Z (10 ^ 1)) with 10%Q.
      field. intros H0. rewrite H0 in Hp. apply (Qlt_irrefl 0). exact Hp.
  - rewrite !pow10_nonneg_exp by lia. rewrite Z.pow_add_r by lia.
    rewrite inject_Z_mult. change (inject_Z (10 ^ 1)) with 10%Q. ring.
Qed.

Lemma pow10_le_succ (e : Z) : (pow10 e <= pow10 (e + 1))%Q.
Proof. rewrite pow10_succ. pose proof (pow10_pos e). lra. Qed.

Lemma pow10_mono (a b : Z) : a <= b -> (pow10 a <= pow10 b)%Q.
Proof.
  intros Hab. replace b with (a + Z.of_nat (Z.to_nat (b - a))) by lia.
  induction (Z.to_nat (b - a)) as [|n IH].
  - replace (a + Z.of_nat 0) with a by lia. apply Qle_refl.
  - replace (a + Z.of_nat (S n)) with (a + Z.of_nat n + 1) by lia.
    eapply Qle_trans; [exact IH | apply pow10_le_succ].
Qed.

(** The nearest integer to [-log10 s] is determined by its two bounds. *)
Lemma round_neg_log10_unique (s : Q) (n : Z) :
  (0 < s)%Q ->
  (pow10 (2 * n - 1) <= / (s * s))%Q -> (/ (s * s) < pow10 (2 * n + 1))%Q ->
  round_neg_log10 s = n.
Proof.
  intros Hs Hlo Hhi.
  destruct (round_neg_log10_spec s Hs) as [Klo Khi].
  set (k := round_neg_log10 s) in *.
  destruct (Z.lt_trichotomy k n) as [Hlt|[Heq|Hgt]]; [|exact Heq|]; exfalso.
  - pose proof (pow10_mono (2 * k + 1) (2 * n - 1) ltac:(lia)). lra.
  - pose proof (pow10_mono (2 * n + 1) (2 * k - 1) ltac:(lia)). lra.
Qed.

Lemma decimalStep_parsed (n : nat) :
  (n <= 323)%nat ->
  exists q, parseFloat (decimalStep n) = Fin q /\ Qle_bool q 0 = false /\
            precision_of_step q = Z.of_nat n.
Proof.
  intros Hn.
  assert (Hall : forallb
                   (fun k =>
                      match parseFloat (decimalStep k) with
                      | Fin q =>
                          negb (Qle_bool q 0) &&
                          Qle_bool (pow10 (2 * Z.of_nat k - 1)) (/ (q * q)) &&
                          negb (Qle_bool (pow10 (2 * Z.of_nat k + 1)) (/ (q * q)))
                      | _ => false
                      end) (seq 0 324) = true) by (vm_compute; reflexivity).
  rewrite forallb_forall in Hall.
  specialize (Hall n ltac:(apply in_seq; lia)).
  destruct (parseFloat (decimalStep n)) as [| |q]; try discriminate.
  apply andb_prop in Hall. destruct Hall as [Hall Hhi].
  apply andb_prop in Hall. destruct Hall as [Hpos Hlo].
  apply negb_true_iff in Hpos. apply negb_true_iff in Hhi.
  exists q. split; [reflexivity|]. split; [exact Hpos|].
  unfold precision_of_step. rewrite (round_neg_log10_unique q (Z.of_nat n)).
  - lia.
  - apply Qnot_le_lt. intros Hle. apply Qle_bool_iff in Hle. congruence.
  - apply Qle_bool_iff. exact Hlo.
  - apply Qnot_le_lt. intros Hle. apply Qle_bool_iff in Hle. congruence.
Qed.

(** X6. For the step [10^-n] written in decimal, [n <= 323], the derived
    precision is [n] in spite of the binary rounding of the step, and
    [roundToStepFloor] throws its RangeError exactly when [n > 100]. *)
Theorem power_of_ten_steps (n : nat) (qty : jsnum) :
  (n <= 323)%nat ->
  calculatePrecisionFromStepSize (decimalStep n) = PNum (Z.of_nat n) /\
  (roundToStepFloor qty (decimalStep n) = None <-> (100 < n)%nat).
Proof.
  intros Hn. destruct (decimalStep_parsed n Hn) as [q [Hparse [Hpos Hp]]].
  split.
  - unfold calculatePrecisionFromStepSize. rewrite Hparse, Hpos, Hp. reflexivity.
  - unfold roundToStepFloor. rewrite Hparse. cbn [truthy jle].
    assert (Hz : Qeq_bool q 0 = false).
    { destruct (Qeq_bool q 0) eqn:Heq; [|reflexivity].
      apply Qeq_bool_eq in Heq.
      assert (Hle : Qle_bool q 0 = true) by (apply Qle_bool_iff; rewrite Heq; apply Qle_refl).
      congruence. }
    rewrite Hz, Hpos, Hp. cbn [negb orb]. unfold toFixed.
    destruct (Z.ltb_spec (Z.of_nat n) 0) as [Hneg|_]; [lia|].
    destruct (Z.ltb_spec 100 (Z.of_nat n)) as [Hbig|Hsmall]; cbn [orb].
    + split; [lia | reflexivity].
    + split; [discriminate | lia].
Qed.

Lemma power_of_ten_steps_witness :
  (8 <= 323)%nat /\
  calculatePrecisionFromStepSize (decimalStep 8) = PNum 8 /\
  roundToStepFloor (lit 123456789 2) (decimalStep 8) <> None.
Proof.
  split; [lia|].
  destruct (power_of_ten_steps 8 (lit 123456789 2) ltac:(lia)) as [Hc Hr].
  split; [exact Hc|]. intros Hnone. apply Hr in Hnone. lia.
Defined.

(** *** [qtyFromNotional] *)

(** X7. [qtyFromNotional] returns 0 when the price is falsy or not
    positive; otherwise what it returns is NaN or at least 0.00000001. *)
Theorem qtyFromNotional_floor (notionalUsd price : jsnum)
    (stepSize minNotional : string) (r : jsnum) :
  qtyFromNotional notionalUsd price stepSize minNotional = Some r ->
  if negb (truthy price) || jle price (Fin 0)
  then r = Fin 0
  else r = NaN \/ jle (lit 1 8) r = true.
Proof.
  unfold qtyFromNotional.
  assert (Hlit : exists a, lit 1 8 = Fin a) by (eexists; reflexivity).
  destruct Hlit as [a Ha]. rewrite Ha. clear Ha.
  destruct (negb (truthy price) || jle price (Fin 0)); [congruence|].
  destruct (ensureMinNotional _ _ _ _) as [q'|]; [|discriminate].
  destruct (roundToStepFloor q' stepSize) as [x|]; [|discriminate].
  intros [= <-].
  destruct x as [|[|]|q]; cbn [jmax jle negb implb].
  - left. reflexivity.
  - right. apply Qle_bool_iff, Qle_refl.
  - right. reflexivity.
  - right. destruct (Qle_bool a q) eqn:Hle; cbn [jle].
    + exact Hle.
    + apply Qle_bool_iff, Qle_refl.
Qed.

Lemma qtyFromNotional_floor_witness :
  qtyFromNotional (of_Z 3) (of_Z 50000) "0.001" "0" = Some (lit 1 8) /\
  (lit 1 8 = NaN \/ jle (lit 1 8) (lit 1 8) = true).
Proof.
  assert (H : qtyFromNotional (of_Z 3) (of_Z 50000) "0.001" "0" = Some (lit 1 8))
    by (vm_compute; reflexivity).
  split; [exact H|].
  exact (qtyFromNotional_floor (of_Z 3) (of_Z 50000) "0.001" "0" (lit 1 8) H).
Defined.

(** *** Safe formatting *)

Lemma round_half_up_zero (x : Q) : round_half_up (Qabs.Qabs 0 * x) = 0.
Proof.
  unfold round_half_up.
  assert (H : (Qabs.Qabs 0 * x + (1 # 2) == 1 # 2)%Q) by (change (Qabs.Qabs 0) with 0%Q; ring).
  rewrite (Qround.Qfloor_comp _ _ H). reflexivity.
Qed.

Lemma safeParseFloat_number (value : jsvalue) :
  isNaN (safeParseFloat value (of_Z 0)) = false.
Proof.
  destruct value as [| |s|x]; cbn; try reflexivity.
  - destruct (String.eqb s ""); [reflexivity|].
    destruct (parseFloat s); reflexivity.
  - destruct x; reflexivity.
Qed.

Lemma zeros_snoc (n : nat) : String.append (zeros n) "0" = zeros (S n).
Proof.
  induction n as [|n IH]; [reflexivity|].
  change (String.append (zeros (S n)) "0")
    with (String "0" (String.append (zeros n) "0")).
  rewrite IH. reflexivity.
Qed.

Lemma zeros_length (n : nat) : String.length (zeros n) = n.
Proof. induction n as [|n IH]; [reflexivity|]. cbn. rewrite IH. reflexivity. Qed.

Lemma substring_whole (s : string) : substring 0 (String.length s) s = s.
Proof. induction s as [|c s IH]; [reflexivity|]. cbn. rewrite IH. reflexivity. Qed.

(** Zero written with [f] decimals. *)
Lemma fixed_text_zero (f : Z) :
  0 <= f ->
  fixed_text false 0 f =
    if f =? 0 then "0"%string else String.append "0." (zeros (Z.to_nat f)).
Proof.
  intros Hf. unfold fixed_text.
  change (digits 0) with "0"%string.
  change (Z.of_nat (String.length "0")) with 1.
  destruct (Z.eqb_spec f 0) as [->|Hne]; [reflexivity|].
  destruct (Z.leb_spec 1 f) as [_|]; [|lia].
  replace (Z.to_nat (f + 1 - 1)) with (Z.to_nat f) by lia.
  rewrite zeros_snoc.
  rewrite zeros_length.
  replace (Z.to_nat (Z.of_nat (S (Z.to_nat f)) - f)) with 1%nat by lia.
  change (zeros (S (Z.to_nat f))) with (String "0" (zeros (Z.to_nat f))).
  change (substring 1 (Z.to_nat f) (String "0" (zeros (Z.to_nat f))))
    with (substring 0 (Z.to_nat f) (zeros (Z.to_nat f))).
  rewrite <- (zeros_length (Z.to_nat f)) at 2. rewrite substring_whole.
  change (substring 0 1 (String "0" (zeros (Z.to_nat f))))
    with (String "0" (substring 0 0 (zeros (Z.to_nat f)))).
  replace (substring 0 0 (zeros (Z.to_nat f))) with ""%string
    by (destruct (zeros (Z.to_nat f)); reflexivity).
  reflexivity.
Qed.

(** X8. [safeFormatNumber] does not use its fallback text: the value it
    formats is never NaN, so the result is the text that [toFixed] writes
    for [safeParseFloat(value, 0)], whatever the fallback is.  A value
    that [safeParseFloat] cannot use is written as zero with the
    requested decimals ("0.00" for two of them). *)
Theorem safeFormatNumber_ignores_fallback (value : jsvalue) (decimals : Z)
    (fallback other : string) :
  safeFormatNumber value decimals fallback =
    option_map numeral_text (toFixed (safeParseFloat value (of_Z 0)) decimals) /\
  safeFormatNumber value decimals fallback = safeFormatNumber value decimals other /\
  (safeParseFloat value NaN = NaN ->
   0 <= decimals <= 100 ->
   safeFormatNumber value decimals fallback =
     Some (if decimals =? 0 then "0"%string
           else String.append "0." (zeros (Z.to_nat decimals)))).
Proof.
  assert (Heq : forall text,
             safeFormatNumber value decimals text =
             option_map numeral_text
               (toFixed (safeParseFloat value (of_Z 0)) decimals)).
  { intros text. unfold safeFormatNumber. rewrite safeParseFloat_number. reflexivity. }
  split; [apply Heq|]. split; [rewrite !Heq; reflexivity|].
  intros Hbad Hd. rewrite Heq.
  assert (Hzero : safeParseFloat value (of_Z 0) = of_Z 0).
  { destruct value as [| |s|x]; cbn in *; try reflexivity.
    - destruct (String.eqb s ""); [reflexivity|].
      destruct (parseFloat s); cbn in *; try reflexivity; discriminate.
    - destruct x; cbn in *; try reflexivity; discriminate. }
  rewrite Hzero. unfold toFixed.
  destruct (Z.ltb_spec decimals 0); [lia|].
  destruct (Z.ltb_spec 100 decimals); [lia|].
  change (of_Z 0) with (Fin 0). cbn [orb option_map].
  change (Qle_bool (pow10 21) (Qabs.Qabs 0)) with false.
  change (is_neg 0) with false. cbv iota.
  rewrite round_half_up_zero. cbn [numeral_text].
  rewrite fixed_text_zero by lia. reflexivity.
Qed.

Lemma safeFormatNumber_ignores_fallback_witness :
  safeParseFloat (VString "n/a") NaN = NaN /\
  0 <= 2 <= 100 /\
  safeFormatNumber (VString "n/a") 2 "--" = Some "0.00"%string /\
  safeFormatNumber VNull 2 "0.00" = Some "0.00"%string /\
  safeFormatNumber (VNumber (lit 12345 3)) 2 "0.00" = Some "12.35"%string.
Proof.
  assert (H : safeParseFloat (VString "n/a") NaN = NaN) by (vm_compute; reflexivity).
  split; [exact H|]. split; [lia|].
  split; [|split; vm_compute; reflexivity].
  exact (proj2 (proj2 (safeFormatNumber_ignores_fallback (VString "n/a") 2 "--" ""))
           H ltac:(lia)).
Defined.

(** *** [extractFilters] and the detection *)

Lemma find_as_filter (fs : list venue_filter) (name : string) :
  List.find (fun f => String.eqb (filterType f) name)
    (List.map (fun f => mkFilter (vfType f) (vfStepSize f)) fs) =
  option_map (fun f => mkFilter (vfType f) (vfStepSize f))
    (List.find (fun f => String.eqb (vfType f) name) fs).
Proof.
  induction fs as [|f fs IH]; [reflexivity|].
  cbn. destruct (String.eqb (vfType f) name); [reflexivity | exact IH].
Qed.

Lemma filter_step_as_filter (info : venue_symbol) (name : string) :
  filter_step (filters (as_symbol_info info)) name =
  field_of (match vsFilters info with Some fs => fs | None => [] end) name vfStepSize.
Proof.
  unfold as_symbol_info, filter_step, field_of. cbn [filters].
  destruct (vsFilters info) as [fs|]; [|reflexivity].
  cbn [option_map]. rewrite find_as_filter.
  destruct (List.find _ fs); reflexivity.
Qed.

Lemma or_default_nonempty (a : option string) (literal : string) :
  literal <> ""%string -> or_default a literal <> ""%string.
Proof.
  intros Hl. unfold or_default. destruct a as [s|]; [|exact Hl].
  destruct (String.eqb_spec s ""); [exact Hl | assumption].
Qed.

(** X9. [extractFilters] returns three non-empty texts.  Its step size
    gives the precision that [detectPrecisionFromExchangeInfo] detects
    for the same symbol, except when neither lot filter carries a step:
    then it is the default 0.00000001 (precision 8) while detection
    answers 3. *)
Theorem extractFilters_and_detection (info : venue_symbol) :
  let values := extractFilters (Some info) in
  let detected :=
    detectPrecisionFromExchangeInfo (mkExchangeInfo (Some [as_symbol_info info]))
      (vsName info) in
  fvStepSize values <> ""%string /\
  fvMinNotional values <> ""%string /\
  fvTickSize values <> ""%string /\
  (detected = calculatePrecisionFromStepSize (fvStepSize values) \/
   (fvStepSize values = "0.00000001"%string /\ detected = PNum 3 /\
    calculatePrecisionFromStepSize (fvStepSize values) = PNum 8)).
Proof.
  intros values detected.
  split; [apply or_default_nonempty; discriminate|].
  split; [apply or_default_nonempty; discriminate|].
  split; [apply or_default_nonempty; discriminate|].
  subst values detected.
  unfold detectPrecisionFromExchangeInfo, extractFilters.
  cbn [symbols List.find as_symbol_info symbolName fvStepSize].
  rewrite String.eqb_refl.
  change (mkSymbolInfo (vsName info) _) with (as_symbol_info info).
  rewrite !filter_step_as_filter.
  set (fs := match vsFilters info with Some fs => fs | None => [] end).
  destruct (field_of fs "MARKET_LOT_SIZE" vfStepSize) as [a|] eqn:Ha; cbn.
  - destruct (String.eqb a "") eqn:Hae; cbn.
    + destruct (field_of fs "LOT_SIZE" vfStepSize) as [b|]; cbn.
      * destruct (String.eqb b ""); cbn.
        -- right. repeat split; vm_compute; reflexivity.
        -- left. reflexivity.
      * right. repeat split; vm_compute; reflexivity.
    + rewrite Hae. left. reflexivity.
  - destruct (field_of fs "LOT_SIZE" vfStepSize) as [b|]; cbn.
    + destruct (String.eqb b ""); cbn.
      * right. repeat split; vm_compute; reflexivity.
      * left. reflexivity.
    + right. repeat split; vm_compute; reflexivity.
Qed.

(** *** Exactness of the rounding on binary64 values *)

Lemma pow2_pos (e : Z) : (0 < pow2 e)%Q.
Proof.
  unfold pow2. destruct (Z.leb_spec 0 e).
  - rewrite <- (Zlt_Qlt 0). apply Z.pow_pos_nonneg; lia.
  - apply Qinv_lt_0_compat. rewrite <- (Zlt_Qlt 0). apply Z.pow_pos_nonneg; lia.
Qed.

Lemma pow2_nonneg_exp (e : Z) : 0 <= e -> pow2 e = inject_Z (2 ^ e).
Proof. intros H. unfold pow2. destruct (Z.leb_spec 0 e); [reflexivity | lia]. Qed.

Lemma pow2_neg_exp (e : Z) : e < 0 -> pow2 e = Qinv (inject_Z (2 ^ (- e))).
Proof. intros H. unfold pow2. destruct (Z.leb_spec 0 e); [lia | reflexivity]. Qed.

Lemma pow2_succ (e : Z) : (pow2 (e + 1) == 2 * pow2 e)%Q.
Proof.
  destruct (Z_lt_le_dec e 0) as [Hneg|Hpos].
  - destruct (Z.eq_dec e (-1)) as [->|Hne].
    + vm_compute. reflexivity.
    + rewrite (pow2_neg_exp (e + 1)) by lia. rewrite (pow2_neg_exp e) by lia.
      replace (- e) with ((- (e + 1)) + 1) by lia.
      rewrite Z.pow_add_r by lia. rewrite inject_Z_mult.
      assert (Hp : (0 < inject_Z (2 ^ (- (e + 1))))%Q).
      { rewrite <- (Zlt_Qlt 0). apply Z.pow_pos_nonneg; lia. }
      change (inject_Z (2 ^ 1)) with 2%Q.
      field. intros H0. rewrite H0 in Hp. apply (Qlt_irrefl 0). exact Hp.
  - rewrite !pow2_nonneg_exp by lia. rewrite Z.pow_add_r by lia.
    rewrite inject_Z_mult. change (inject_Z (2 ^ 1)) with 2%Q. ring.
Qed.

Lemma pow2_shift (e : Z) (k : nat) :
  (pow2 (e + Z.of_nat k) == inject_Z (2 ^ Z.of_nat k) * pow2 e)%Q.
Proof.
  induction k as [|k IH].
  - replace (e + Z.of_nat 0) with e by lia. change (inject_Z (2 ^ Z.of_nat 0)) with 1%Q. ring.
  - replace (e + Z.of_nat (S k)) with (e + Z.of_nat k + 1) by lia.
    rewrite pow2_succ, IH.
    replace (Z.of_nat (S k)) with (Z.of_nat k + 1) by lia.
    rewrite Z.pow_add_r by lia. rewrite inject_Z_mult.
    change (inject_Z (2 ^ 1)) with 2%Q. ring.
Qed.

Lemma pow2_lt_succ (e : Z) : (pow2 e < pow2 (e + 1))%Q.
Proof. rewrite pow2_succ. pose proof (pow2_pos e). lra. Qed.

Lemma pow2_mono (a b : Z) : a <= b -> (pow2 a <= pow2 b)%Q.
Proof.
  intros Hab. replace b with (a + Z.of_nat (Z.to_nat (b - a))) by lia.
  rewrite pow2_shift.
  assert (H1 : (1 <= inject_Z (2 ^ Z.of_nat (Z.to_nat (b - a))))%Q).
  { rewrite <- (Zle_Qle 1).
    pose proof (Z.pow_pos_nonneg 2 (Z.of_nat (Z.to_nat (b - a))) ltac:(lia) ltac:(lia)).
    lia. }
  pose proof (pow2_pos a). nra.
Qed.

Lemma pow2_le_inv (a b : Z) : (pow2 a <= pow2 b)%Q -> a <= b.
Proof.
  intros Hle. destruct (Z_le_gt_dec a b) as [H|H]; [exact H|exfalso].
  pose proof (pow2_mono (b + 1) a ltac:(lia)).
  pose proof (pow2_lt_succ b). lra.
Qed.

(** The binade of a positive rational. *)
Lemma ilog2_spec (a : Q) :
  (0 < a)%Q -> (pow2 (ilog2 a) <= a)%Q /\ (a < pow2 (ilog2 a + 1))%Q.
Proof.
  intros Ha. destruct a as [n d]. unfold ilog2. cbn [Qnum Qden].
  assert (Hn : 0 < n) by (unfold Qlt in Ha; cbn in Ha; lia).
  set (ln := Z.log2 n). set (ld := Z.log2 (Z.pos d)).
  pose proof (Z.log2_spec n Hn) as [Hn1 Hn2]. fold ln in Hn1, Hn2.
  pose proof (Z.log2_spec (Z.pos d) ltac:(lia)) as [Hd1 Hd2]. fold ld in Hd1, Hd2.
  pose proof (Z.log2_nonneg n) as Hln. fold ln in Hln.
  pose proof (Z.log2_nonneg (Z.pos d)) as Hld. fold ld in Hld.
  assert (Hq : (n # d == inject_Z n / inject_Z (Z.pos d))%Q) by apply Qmake_Qdiv.
  assert (HdQ : (0 < inject_Z (Z.pos d))%Q) by (rewrite <- (Zlt_Qlt 0); lia).
  assert (Hmul : ((n # d) * inject_Z (Z.pos d) == inject_Z n)%Q).
  { rewrite Hq. field. lra. }
  (* the two outer bounds *)
  assert (Hup : (n # d < pow2 (ln - ld + 1))%Q).
  { assert (E1 : (pow2 (ln - ld + 1) * pow2 ld == pow2 (ln + 1))%Q).
    { replace (ln + 1) with (ln - ld + 1 + Z.of_nat (Z.to_nat ld)) by lia.
      rewrite pow2_shift. rewrite (pow2_nonneg_exp ld) by lia.
      replace (Z.of_nat (Z.to_nat ld)) with ld by lia. ring. }
    rewrite (pow2_nonneg_exp (ln + 1)) in E1 by lia.
    rewrite (pow2_nonneg_exp ld) in E1 by lia.
    assert (B1 : (inject_Z n < inject_Z (2 ^ (ln + 1)))%Q)
      by (rewrite <- Zlt_Qlt; unfold Z.succ in Hn2; lia).
    assert (B2 : (inject_Z (2 ^ ld) <= inject_Z (Z.pos d))%Q)
      by (rewrite <- Zle_Qle; lia).
    assert (P0 : (0 < inject_Z (2 ^ ld))%Q)
      by (rewrite <- (Zlt_Qlt 0); apply Z.pow_pos_nonneg; lia).
    pose proof (pow2_pos (ln - ld + 1)) as P1.
    apply Qnot_le_lt. intros Hle.
    assert ((pow2 (ln - ld + 1) * inject_Z (2 ^ ld) <= (n # d) * inject_Z (Z.pos d))%Q).
    { apply Qle_trans with (y := ((n # d) * inject_Z (2 ^ ld))%Q).
      - apply Qmult_le_compat_r; [exact Hle | lra].
      - rewrite !(Qmult_comm (n # d)). apply Qmult_le_compat_r; [exact B2|].
        apply Qlt_le_weak. exact Ha. }
    lra. }
  assert (Hlow : (pow2 (ln - ld - 1) <= n # d)%Q).
  { assert (E1 : (pow2 (ln - ld - 1) * pow2 (ld + 1) == pow2 ln)%Q).
    { replace ln with (ln - ld - 1 + Z.of_nat (Z.to_nat (ld + 1))) at 2 by lia.
      rewrite pow2_shift. rewrite (pow2_nonneg_exp (ld + 1)) by lia.
      replace (Z.of_nat (Z.to_nat (ld + 1))) with (ld + 1) by lia. ring. }
    rewrite (pow2_nonneg_exp ln) in E1 by lia.
    rewrite (pow2_nonneg_exp (ld + 1)) in E1 by lia.
    assert (B1 : (inject_Z (2 ^ ln) <= inject_Z n)%Q) by (rewrite <- Zle_Qle; lia).
    assert (B2 : (inject_Z (Z.pos d) < inject_Z (2 ^ (ld + 1)))%Q)
      by (rewrite <- Zlt_Qlt; unfold Z.succ in Hd2; lia).
    pose proof (pow2_pos (ln - ld - 1)) as P1.
    apply Qnot_lt_le. intros Hlt.
    assert (((n # d) * inject_Z (Z.pos d) < pow2 (ln - ld - 1) * inject_Z (2 ^ (ld + 1)))%Q).
    { apply Qlt_trans with (y := (pow2 (ln - ld - 1) * inject_Z (Z.pos d))%Q).
      - apply Qmult_lt_compat_r; [exact HdQ | exact Hlt].
      - rewrite !(Qmult_comm (pow2 (ln - ld - 1))).
        apply Qmult_lt_compat_r; [exact P1 | exact B2]. }
    lra. }
  destruct (Qle_bool (pow2 (ln - ld)) (n # d)) eqn:Hcmp.
  - split; [apply Qle_bool_iff; exact Hcmp | exact Hup].
  - split; [exact Hlow|].
    replace (ln - ld - 1 + 1) with (ln - ld) by lia.
    apply Qnot_le_lt. intros Hle. apply Qle_bool_iff in Hle. congruence.
Qed.

Lemma round_half_even_integer (x : Q) (N : Z) :
  (x == inject_Z N)%Q -> round_half_even x = N.
Proof.
  intros Hx. unfold round_half_even.
  rewrite (Qfloor_comp _ _ Hx), Qfloor_Z.
  assert (Hlt : (x - inject_Z N < 1 # 2)%Q) by (rewrite Hx; lra).
  destruct (Qcompare (x - inject_Z N) (1 # 2)) eqn:Hc.
  - apply Qeq_alt in Hc. lra.
  - reflexivity.
  - apply Qgt_alt in Hc. lra.
Qed.

Lemma Qabs_inject_Z (m : Z) : (Qabs (inject_Z m) == inject_Z (Z.abs m))%Q.
Proof.
  destruct (Z_le_gt_dec 0 m) as [H|H].
  - assert (Hq : (0 <= inject_Z m)%Q) by (rewrite <- (Zle_Qle 0); exact H).
    rewrite (Qabs_pos _ Hq). rewrite Z.abs_eq by exact H. reflexivity.
  - assert (Hq : (inject_Z m <= 0)%Q) by (unfold Qle; cbn; lia).
    rewrite (Qabs_neg _ Hq). rewrite Z.abs_neq by lia.
    rewrite inject_Z_opp. reflexivity.
Qed.

(** A binary64 value is its own rounding. *)
Lemma b64_exact (q : Q) : is_binary64 q -> (b64 q == q)%Q.
Proof.
  intros [m [e [Hm [He Hq]]]]. unfold b64.
  destruct (Qeq_bool q 0) eqn:Hz.
  { apply Qeq_bool_eq in Hz. rewrite Hz. reflexivity. }
  apply Qeq_bool_neq in Hz.
  set (a := Qabs q). set (M := Z.abs m).
  pose proof (pow2_pos e) as Pe.
  assert (Ha : (a == inject_Z M * pow2 e)%Q).
  { subst a M. rewrite (Qabs_wd _ _ Hq), Qabs_Qmult, Qabs_inject_Z.
    rewrite (Qabs_pos (pow2 e) (Qlt_le_weak _ _ Pe)). reflexivity. }
  assert (HM1 : 1 <= M).
  { subst M. destruct (Z.eq_dec m 0) as [->|Hne]; [|lia].
    exfalso. apply Hz. rewrite Hq. change (inject_Z 0) with 0%Q. ring. }
  assert (HMQ : (1 <= inject_Z M)%Q) by (rewrite <- (Zle_Qle 1); exact HM1).
  assert (HMQ' : (inject_Z M <= inject_Z (2 ^ 53))%Q) by (rewrite <- Zle_Qle; exact Hm).
  assert (Hapos : (0 < a)%Q) by (rewrite Ha; nra).
  destruct (ilog2_spec a Hapos) as [Llo Lhi].
  set (L := ilog2 a) in *.
  assert (HL : L <= e + 53).
  { apply pow2_le_inv.
    pose proof (pow2_shift e 53) as Hs. change (Z.of_nat 53) with 53 in Hs.
    rewrite Hs. nra. }
  set (ex := Z.max (L - 52) (-1074)).
  pose proof (pow2_pos ex) as Pex.
  assert (Hint : exists N : Z, (inject_Z N * pow2 ex == a)%Q).
  { destruct (Z_le_gt_dec L (e + 52)) as [Hsmall|Hbig].
    - assert (Hex : ex <= e) by (subst ex; lia).
      exists (M * 2 ^ Z.of_nat (Z.to_nat (e - ex))).
      pose proof (pow2_shift ex (Z.to_nat (e - ex))) as Hs.
      replace (ex + Z.of_nat (Z.to_nat (e - ex))) with e in Hs by lia.
      rewrite Ha, Hs, inject_Z_mult. ring.
    - assert (HLe : L = e + 53) by lia.
      assert (HM : M = 2 ^ 53).
      { pose proof (pow2_shift e 53) as Hs. change (Z.of_nat 53) with 53 in Hs.
        rewrite HLe, Hs, Ha in Llo.
        assert ((inject_Z (2 ^ 53) <= inject_Z M)%Q) by nra.
        rewrite <- Zle_Qle in H. lia. }
      assert (Hex : ex = e + 1) by (subst ex; lia).
      exists (2 ^ 52).
      rewrite Hex, pow2_succ, Ha, HM.
      change (inject_Z (2 ^ 53)) with (2 * inject_Z (2 ^ 52))%Q. ring. }
  destruct Hint as [N HN].
  assert (Hdiv : (a / pow2 ex == inject_Z N)%Q).
  { rewrite <- HN. field. lra. }
  fold a. fold L. fold ex.
  rewrite (round_half_even_integer _ _ Hdiv).
  rewrite Qred_correct.
  destruct (Qle_bool 0 q) eqn:Hsign.
  - apply Qle_bool_iff in Hsign.
    assert (a == q)%Q by (subst a; apply Qabs_pos; exact Hsign).
    rewrite <- Qmult_assoc, HN. lra.
  - assert (Hneg : (q <= 0)%Q).
    { apply Qlt_le_weak, Qnot_le_lt. intros Hle. apply Qle_bool_iff in Hle. congruence. }
    assert (a == - q)%Q by (subst a; apply Qabs_neg; exact Hneg).
    rewrite <- Qmult_assoc, HN. lra.
Qed.

Lemma b64_exact_upto (q q' : Q) : is_binary64 q' -> (q == q')%Q -> b64 q = Qred q'.
Proof.
  intros [m [e [Hm [He Hq']]]] Hq.
  assert (Hb : is_binary64 q).
  { exists m, e. split; [exact Hm|]. split; [exact He|]. rewrite Hq. exact Hq'. }
  pose proof (b64_exact q Hb) as Hx.
  assert (Hred : b64 q = Qred (b64 q)).
  { unfold b64. destruct (Qeq_bool q 0); [reflexivity|].
    symmetry. apply Qred_complete, Qred_correct. }
  rewrite Hred. apply Qred_complete. rewrite Hx. exact Hq.
Qed.

Lemma Qred_inject_Z (N : Z) : Qred (inject_Z N) = inject_Z N.
Proof.
  unfold Qred, inject_Z.
  pose proof (Z.ggcd_gcd N 1) as Hg.
  pose proof (Z.ggcd_correct_divisors N 1) as Hd.
  destruct (Z.ggcd N 1) as [g [r1 r2]]. cbn in *.
  rewrite Z.gcd_1_r in Hg. subst g. destruct Hd as [H1 H2].
  rewrite Z.mul_1_l in H1, H2. subst r1 r2. reflexivity.
Qed.

Lemma integer_is_binary64 (N : Z) : Z.abs N <= 2 ^ 53 -> is_binary64 (inject_Z N).
Proof.
  intros HN. exists N, 0. split; [exact HN|]. split; [lia|].
  change (pow2 0) with 1%Q. ring.
Qed.

Lemma b64_integer (x : Q) (N : Z) :
  Z.abs N <= 2 ^ 53 -> (x == inject_Z N)%Q -> b64 x = inject_Z N.
Proof.
  intros HN Hx. rewrite (b64_exact_upto x (inject_Z N) (integer_is_binary64 N HN) Hx).
  apply Qred_inject_Z.
Qed.

(** *** Whole-number steps *)

Lemma round_half_up_integer (x : Q) (N : Z) :
  (x == inject_Z N)%Q -> round_half_up x = N.
Proof.
  intros Hx. unfold round_half_up.
  set (f := Qfloor (x + (1 # 2))).
  pose proof (Qfloor_le (x + (1 # 2))) as Hlo.
  pose proof (Qlt_floor (x + (1 # 2))) as Hhi.
  fold f in Hlo, Hhi. rewrite Hx in Hlo, Hhi.
  rewrite inject_Z_plus in Hhi. change (inject_Z 1) with 1%Q in Hhi.
  destruct (Z.lt_trichotomy f N) as [Hlt|[Heq|Hgt]]; [|exact Heq|]; exfalso.
  - assert (Hq : (inject_Z (f + 1) <= inject_Z N)%Q) by (rewrite <- Zle_Qle; lia).
    rewrite inject_Z_plus in Hq. change (inject_Z 1) with 1%Q in Hq. lra.
  - assert (Hq : (inject_Z (N + 1) <= inject_Z f)%Q) by (rewrite <- Zle_Qle; lia).
    rewrite inject_Z_plus in Hq. change (inject_Z 1) with 1%Q in Hq. lra.
Qed.

Lemma floor_bounds (q : Q) (lo hi : Z) :
  (inject_Z lo <= q)%Q -> (q < inject_Z hi)%Q -> lo <= Qfloor q < hi.
Proof.
  intros Hlo Hhi. split.
  - rewrite <- (Qfloor_Z lo). apply Qfloor_resp_le. exact Hlo.
  - pose proof (Qfloor_le q) as Hf.
    assert (Hq : (inject_Z (Qfloor q) < inject_Z hi)%Q) by lra.
    rewrite <- Zlt_Qlt in Hq. exact Hq.
Qed.

(** [roundToStepFloor] with step "1" on a whole number below 2^53. *)
Lemma roundToStepFloor_unit_whole (N : Z) :
  0 <= N < 2 ^ 53 ->
  roundToStepFloor (Fin (inject_Z N)) "1" = Some (Fin (inject_Z N)).
Proof.
  intros HN.
  assert (Hs : parseFloat "1" = Fin 1) by (vm_compute; reflexivity).
  unfold roundToStepFloor. rewrite Hs.
  change (negb (truthy (Fin 1)) || jle (Fin 1) (Fin 0)) with false. cbv iota.
  change (precision_of_step 1) with 0.
  assert (Hdiv : jdiv (Fin (inject_Z N)) (Fin 1) = Fin (inject_Z N)).
  { unfold jdiv. change (Qeq_bool 1 0) with false. cbv iota. f_equal.
    apply b64_integer; [lia | field]. }
  rewrite Hdiv. cbn [jfloor]. rewrite Qfloor_Z.
  assert (Hmul : jmul (Fin (inject_Z N)) (Fin 1) = Fin (inject_Z N)).
  { unfold jmul. f_equal. apply b64_integer; [lia | ring]. }
  rewrite Hmul. unfold toFixed. change ((0 <? 0) || (100 <? 0)) with false. cbv iota.
  assert (Habs : Qabs (inject_Z N) = inject_Z N).
  { unfold Qabs, inject_Z. rewrite Z.abs_eq by lia. reflexivity. }
  rewrite Habs.
  assert (Hbig : Qle_bool (pow10 21) (inject_Z N) = false).
  { destruct (Qle_bool (pow10 21) (inject_Z N)) eqn:Hc; [|reflexivity].
    apply Qle_bool_iff in Hc. change (pow10 21) with (inject_Z (10 ^ 21)) in Hc.
    rewrite <- Zle_Qle in Hc. lia. }
  rewrite Hbig.
  assert (Hneg : is_neg (inject_Z N) = false).
  { unfold is_neg. apply negb_false_iff, Qle_bool_iff.
    unfold Qle. cbn. lia. }
  rewrite Hneg.
  rewrite (round_half_up_integer (inject_Z N * pow10 0) N)
    by (change (pow10 0) with 1%Q; ring).
  cbn [parseFloat_numeral]. do 2 f_equal.
  apply b64_integer; [lia|]. change (pow10 (- 0)) with 1%Q. ring.
Qed.

(** X10. With step "1" and a binary64 quantity in [0, 2^53),
    [roundToStepFloor] returns the floor of the quantity: it is not above
    the quantity and a second application leaves it as it is. *)
Theorem roundToStepFloor_unit_step (q : Q) :
  is_binary64 q -> (0 <= q)%Q -> (q < inject_Z (2 ^ 53))%Q ->
  let floored := Fin (inject_Z (Qfloor q)) in
  roundToStepFloor (Fin q) "1" = Some floored /\
  jle floored (Fin q) = true /\
  roundToStepFloor floored "1" = Some floored.
Proof.
  intros Hb Hlo Hhi floored.
  pose proof (floor_bounds q 0 (2 ^ 53) Hlo Hhi) as HN.
  split; [|split].
  - assert (Hs : parseFloat "1" = Fin 1) by (vm_compute; reflexivity).
    pose proof (roundToStepFloor_unit_whole (Qfloor q) HN) as Hw.
    unfold roundToStepFloor in *. rewrite Hs in *.
    change (negb (truthy (Fin 1)) || jle (Fin 1) (Fin 0)) with false in *.
    cbv iota in *.
    assert (Hdiv : jfloor (jdiv (Fin q) (Fin 1)) =
                   jfloor (jdiv (Fin (inject_Z (Qfloor q))) (Fin 1))).
    { unfold jdiv. change (Qeq_bool 1 0) with false. cbv iota. cbn [jfloor].
      rewrite (b64_exact_upto (q / 1) q Hb) by field.
      rewrite (b64_integer (inject_Z (Qfloor q) / 1) (Qfloor q)) by (try lia; field).
      rewrite (Qfloor_comp _ _ (Qred_correct q)), Qfloor_Z. reflexivity. }
    rewrite Hdiv. exact Hw.
  - cbn [jle floored]. apply Qle_bool_iff, Qfloor_le.
  - apply roundToStepFloor_unit_whole. exact HN.
Qed.

(** X11. [roundQuantity] at precision 0 returns the floor of a binary64
    quantity in [-2^53, 2^53), which is not above the quantity. *)
Theorem roundQuantity_whole (q : Q) :
  is_binary64 q -> (inject_Z (- 2 ^ 53) <= q)%Q -> (q < inject_Z (2 ^ 53))%Q ->
  roundQuantity (Fin q) 0 = Fin (inject_Z (Qfloor q)) /\
  jle (roundQuantity (Fin q) 0) (Fin q) = true.
Proof.
  intros Hb Hlo Hhi.
  pose proof (floor_bounds q (- 2 ^ 53) (2 ^ 53) Hlo Hhi) as HN.
  assert (Heq : roundQuantity (Fin q) 0 = Fin (inject_Z (Qfloor q))).
  { unfold roundQuantity.
    assert (Hp : pow10_num 0 = Fin 1) by (vm_compute; reflexivity).
    rewrite Hp. unfold jmul. cbn [jfloor].
    rewrite (b64_exact_upto (q * 1) q Hb) by ring.
    rewrite (Qfloor_comp _ _ (Qred_correct q)).
    unfold jdiv. change (Qeq_bool 1 0) with false. cbv iota. f_equal.
    apply b64_integer; [lia | field]. }
  split; [exact Heq|]. rewrite Heq. cbn [jle]. apply Qle_bool_iff, Qfloor_le.
Qed.

Lemma roundToStepFloor_unit_step_witness :
  let q := b64 (78 # 10) in
  is_binary64 q /\ (0 <= q)%Q /\ (q < inject_Z (2 ^ 53))%Q /\
  roundToStepFloor (lit 78 1) "1" = Some (of_Z 7).
Proof.
  cbv zeta.
  assert (Hb : is_binary64 (b64 (78 # 10))).
  { exists 8782019273372467, (-50). split; [lia|]. split; [lia|].
    vm_compute. reflexivity. }
  assert (H0 : (0 <= b64 (78 # 10))%Q) by (vm_compute; discriminate).
  assert (H1 : (b64 (78 # 10) < inject_Z (2 ^ 53))%Q) by (vm_compute; reflexivity).
  split; [exact Hb|]. split; [exact H0|]. split; [exact H1|].
  etransitivity;
    [exact (proj1 (roundToStepFloor_unit_step (b64 (78 # 10)) Hb H0 H1))
    | vm_compute; reflexivity].
Defined.

Lemma roundQuantity_whole_witness :
  let q := b64 (78 # 10) in
  is_binary64 q /\ (inject_Z (- 2 ^ 53) <= q)%Q /\ (q < inject_Z (2 ^ 53))%Q /\
  getPrecision ∅ "DOGEUSDT" = 0 /\
  roundQuantity (lit 78 1) (getPrecision ∅ "DOGEUSDT") = of_Z 7.
Proof.
  cbv zeta.
  assert (Hb : is_binary64 (b64 (78 # 10))).
  { exists 8782019273372467, (-50). split; [lia|]. split; [lia|].
    vm_compute. reflexivity. }
  assert (H0 : (inject_Z (- 2 ^ 53) <= b64 (78 # 10))%Q) by (vm_compute; discriminate).
  assert (H1 : (b64 (78 # 10) < inject_Z (2 ^ 53))%Q) by (vm_compute; reflexivity).
  assert (Hp : getPrecision ∅ "DOGEUSDT" = 0) by (vm_compute; reflexivity).
  split; [exact Hb|]. split; [exact H0|]. split; [exact H1|]. split; [exact Hp|].
  rewrite Hp.
  etransitivity;
    [exact (proj1 (roundQuantity_whole (b64 (78 # 10)) Hb H0 H1))
    | vm_compute; reflexivity].
Defined.

(** *** Orders placed by the ladder and by the smart placement *)

Lemma successes_app (l1 l2 : list event) :
  successes (l1 ++ l2) = (successes l1 + successes l2)%nat.
Proof. unfold successes. rewrite List.filter_app, length_app. reflexivity. Qed.

Lemma successes_rejections (failed : list event) :
  Forall (fun ev => is_precision_rejection ev = true) failed ->
  successes failed = 0%nat.
Proof.
  induction 1 as [|ev l Hev _ IH]; [reflexivity|].
  unfold successes in *. cbn [List.filter].
  destruct ev as [? ? ? ? [e|]| |]; cbn in Hev; try discriminate.
  cbn. exact IH.
Qed.

Lemma loop_run_successes {R : Type} (symbol side : string) (reduceOnly : bool)
    (n : nat) cache file evs (res : result (option R)) cache' file' :
  loop_run symbol side reduceOnly n cache file evs res cache' file' ->
  successes evs = match res with Ok (Some _) => 1%nat | _ => 0%nat end.
Proof.
  destruct 1 as [failed q written k r Hf Hk Hlen | failed Hf Hlen
                | failed q e Hf Hlen He | failed q e Hf Hlen He | failed Hf Hlen];
    rewrite ?successes_app, (successes_rejections failed Hf); reflexivity.
Qed.

Lemma loop_run_cache {R : Type} (symbol side : string) (reduceOnly : bool)
    (n : nat) cache file evs (res : result (option R)) cache' file' :
  loop_run symbol side reduceOnly n cache file evs res cache' file' ->
  cache' = cache \/ exists k : nat, cache' = <[symbol := PNum (Z.of_nat k)]> cache.
Proof.
  destruct 1 as [failed q written k r Hf Hk Hlen | failed Hf Hlen
                | failed q e Hf Hlen He | failed q e Hf Hlen He | failed Hf Hlen];
    eauto.
Qed.

Section SmartFacts.
Context {W R : Type} (E : env W R).
Variables (symbol side : string) (reduceOnly : bool) (quantity : jsnum).

(** The ladder, summed up for the smart placement. *)
Lemma ladder_summary (m : machine) :
  let p0 := getPrecision (precisionCache m) symbol in
  let run := handlePrecisionError E symbol quantity
               (submitWith E symbol side reduceOnly) m in
  exists evs,
    log (snd run) = log m ++ evs /\
    (submissions evs <= Z.to_nat (p0 + 1))%nat /\
    successes evs = (match fst run with Ok _ => 1 | Throw _ => 0 end)%nat /\
    (precisionCache (snd run) = precisionCache m \/
     exists k : nat,
       precisionCache (snd run) = <[symbol := PNum (Z.of_nat k)]> (precisionCache m)).
Proof.
  intros p0 run.
  destruct (handlePrecisionError_run E symbol side reduceOnly quantity m)
    as [evs [outcome [Hlog [Hrun Hres]]]].
  fold p0 in Hrun, Hres. fold run in Hlog, Hrun, Hres.
  exists evs. split; [exact Hlog|]. split.
  { exact (loop_run_submissions symbol side reduceOnly _ _ _ _ _ _ _ Hrun). }
  split.
  { rewrite (loop_run_successes _ _ _ _ _ _ _ _ _ _ Hrun), Hres.
    destruct outcome as [[r|]|e]; reflexivity. }
  exact (loop_run_cache _ _ _ _ _ _ _ _ _ _ Hrun).
Qed.

(** X12. A smart placement makes one submission when its first attempt
    goes through or fails with anything but a precision rejection.
    After a precision rejection it makes at most [1 + (p0 + 1)] when the
    exchange info cannot be fetched, and at most [2 + (start + 1)] when
    it can, where [start] is the precision resolved once the precision
    detected in that answer is stored.  Exactly one submission goes
    through when it returns, and none when it throws. *)
Theorem smart_placement_orders (m : machine) :
  let p0 := getPrecision (precisionCache m) symbol in
  let run := placeMarketOrderSmart E symbol side quantity reduceOnly m in
  exists evs,
    log (snd run) = log m ++ evs /\
    successes evs = (match fst run with Ok _ => 1 | Throw _ => 0 end)%nat /\
    (1 <= submissions evs)%nat /\
    match placeMarketOrder E symbol side (roundQuantity quantity p0)
            reduceOnly (world m) with
    | (Ok _, _) => submissions evs = 1%nat
    | (Throw error, w1) =>
        if is_precision_error error then
          match getExchangeInfo E w1 with
          | (Throw _, _) => (submissions evs <= 1 + Z.to_nat (p0 + 1))%nat
          | (Ok exchangeInfo, _) =>
              let start :=
                getPrecision
                  (<[symbol := detectPrecisionFromExchangeInfo exchangeInfo symbol]>
                     (precisionCache m)) symbol in
              (submissions evs <= 2 + Z.to_nat (start + 1))%nat
          end
        else submissions evs = 1%nat
    end.
Proof.
  intros p0 run. subst run. rewrite placeMarketOrderSmart_step. cbv zeta.
  cbn [precisionCache precisionFile log world]. fold p0.
  destruct (placeMarketOrder E symbol side (roundQuantity quantity p0)
              reduceOnly (world m)) as [[r|error] w1].
  - eexists. split; [reflexivity|]. cbn. repeat split; lia.
  - unfold is_precision_error.
    destruct (precision_test error) as [[|]|]; cycle 1.
    { eexists. split; [reflexivity|]. cbn. repeat split; lia. }
    { eexists. split; [reflexivity|]. cbn. repeat split; lia. }
    destruct (getExchangeInfo E w1) as [[exchangeInfo|e1] w2].
    + destruct (writeFileSync E w2) as [written w3].
      destruct (placeMarketOrder E symbol side _ reduceOnly w3) as [[r|e2] w4].
      * eexists. split; [cbn; rewrite <- !app_assoc; reflexivity|].
        cbn. repeat split; lia.
      * match goal with
        | |- context [handlePrecisionError E symbol quantity _ ?m2] =>
            destruct (ladder_summary m2) as [evs [Hlog [Hsub [Hsuc _]]]]
        end.
        cbn [precisionCache precisionFile log] in Hlog, Hsub.
        eexists. split; [rewrite Hlog, <- !app_assoc; reflexivity|].
        rewrite !submissions_app, !successes_app, Hsuc. cbn.
        repeat split; lia.
    + match goal with
      | |- context [handlePrecisionError E symbol quantity _ ?m2] =>
          destruct (ladder_summary m2) as [evs [Hlog [Hsub [Hsuc _]]]]
      end.
      cbn [precisionCache precisionFile log] in Hlog, Hsub. fold p0 in Hsub.
      eexists. split; [rewrite Hlog, <- !app_assoc; reflexivity|].
      rewrite !submissions_app, !successes_app, Hsuc. cbn.
      repeat split; lia.
Qed.

(** X13. A smart placement for one symbol leaves the cache entry and the
    resolved precision of every other symbol as they were. *)
Theorem smart_placement_touches_one_symbol (m : machine) (other : string) :
  other <> symbol ->
  let run := placeMarketOrderSmart E symbol side quantity reduceOnly m in
  precisionCache (snd run) !! other = precisionCache m !! other /\
  getPrecision (precisionCache (snd run)) other =
    getPrecision (precisionCache m) other.
Proof.
  intros Hne run.
  assert (Hlook : precisionCache (snd run) !! other = precisionCache m !! other).
  { subst run. rewrite placeMarketOrderSmart_step. cbv zeta.
    cbn [precisionCache precisionFile log world].
    destruct (placeMarketOrder E symbol side _ reduceOnly (world m)) as [[r|error] w1];
      [reflexivity|].
    destruct (precision_test error) as [[|]|]; [|reflexivity|reflexivity].
    destruct (getExchangeInfo E w1) as [[exchangeInfo|e1] w2].
    - destruct (writeFileSync E w2) as [written w3].
      destruct (placeMarketOrder E symbol side _ reduceOnly w3) as [[r|e2] w4].
      + cbn. apply lookup_insert_ne. congruence.
      + match goal with
        | |- context [handlePrecisionError E symbol quantity _ ?m2] =>
            destruct (ladder_summary m2) as [evs [_ [_ [_ [Hc|[k Hc]]]]]]
        end; rewrite Hc; cbn [precisionCache];
          rewrite ?lookup_insert_ne by congruence; reflexivity.
    - match goal with
      | |- context [handlePrecisionError E symbol quantity _ ?m2] =>
          destruct (ladder_summary m2) as [evs [_ [_ [_ [Hc|[k Hc]]]]]]
      end; rewrite Hc; cbn [precisionCache];
        rewrite ?lookup_insert_ne by congruence; reflexivity. }
  split; [exact Hlook|].
  unfold getPrecision, cachedPrecision. rewrite Hlook. reflexivity.
Qed.

End SmartFacts.

Lemma submitted_app (l1 l2 : list event) :
  submitted (l1 ++ l2) = submitted l1 ++ submitted l2.
Proof.
  induction l1 as [|ev l1 IH]; [reflexivity|].
  destruct ev; cbn; rewrite IH; reflexivity.
Qed.

Section LadderQuantities.
Context {W R : Type} (E : env W R).
Variables (symbol side : string) (reduceOnly : bool) (quantity : jsnum).

Lemma precisionLoop_quantities (n : nat) :
  forall m : machine,
    let run := precisionLoop E n symbol quantity
                 (submitWith E symbol side reduceOnly) m in
    exists evs j,
      log (snd run) = log m ++ evs /\ (j <= n)%nat /\
      submitted evs =
        List.map (fun i => roundQuantity quantity (Z.of_nat (n - 1 - i))) (seq 0 j).
Proof.
  induction n as [|k IH]; intros m run; subst run.
  - exists [], 0%nat. cbn. rewrite app_nil_r. repeat split; lia.
  - rewrite precisionLoop_step. cbv zeta.
    destruct (toFixed (roundQuantity quantity (Z.of_nat k)) (Z.of_nat k)) as [text|].
    + destruct (placeMarketOrder E symbol side (roundQuantity quantity (Z.of_nat k))
                  reduceOnly (world m)) as [[r|e] w'].
      * destruct (writeFileSync E w') as [written w''].
        eexists. exists 1%nat. split; [cbn; rewrite <- app_assoc; reflexivity|].
        split; [lia|]. cbn [seq List.map]. replace (S k - 1 - 0)%nat with k by lia. reflexivity.
      * destruct (precision_test e) as [[|]|].
        -- set (m1 := mkMachine _ _ _ _).
           destruct (IH m1) as [evs [j [Hlog [Hj Hq]]]].
           eexists. exists (S j). split.
           ++ rewrite Hlog. subst m1. cbn [log]. rewrite <- app_assoc. reflexivity.
           ++ split; [lia|]. cbn [app submitted]. rewrite Hq.
              cbn [seq List.map]. replace (S k - 1 - 0)%nat with k by lia.
              f_equal. rewrite <- seq_shift, List.map_map.
              apply List.map_ext. intros i. f_equal. f_equal. lia.
        -- eexists. exists 1%nat. split; [reflexivity|].
           split; [lia|]. cbn [seq List.map]. replace (S k - 1 - 0)%nat with k by lia. reflexivity.
        -- eexists. exists 1%nat. split; [reflexivity|].
           split; [lia|]. cbn [seq List.map]. replace (S k - 1 - 0)%nat with k by lia. reflexivity.
    + exists [], 0%nat. cbn. rewrite app_nil_r. repeat split; lia.
Qed.

(** X14. The quantities that the ladder submits are the roundings of
    the original quantity at [p0], [p0 - 1], ..., in this order. *)
Theorem ladder_quantities (m : machine) :
  let p0 := getPrecision (precisionCache m) symbol in
  let run := handlePrecisionError E symbol quantity
               (submitWith E symbol side reduceOnly) m in
  exists evs j,
    log (snd run) = log m ++ evs /\
    (j <= Z.to_nat (p0 + 1))%nat /\
    submitted evs =
      List.map (fun i => roundQuantity quantity (p0 - Z.of_nat i)) (seq 0 j).
Proof.
  intros p0 run.
  destruct (precisionLoop_quantities (Z.to_nat (p0 + 1)) m) as [evs [j [Hlog [Hj Hq]]]].
  cbv zeta in Hlog.
  exists evs, j. split.
  - subst run. unfold handlePrecisionError, bind, gets. fold p0.
    destruct (precisionLoop E (Z.to_nat (p0 + 1)) symbol quantity
                (submitWith E symbol side reduceOnly) m) as [[[r|]|e] m'];
      cbn in *; exact Hlog.
  - split; [exact Hj|]. rewrite Hq. apply List.map_ext_in.
    intros i Hi. apply in_seq in Hi. f_equal. lia.
Qed.

(** Under reliable writes the file follows the cache. *)
Lemma precisionLoop_coherent (n : nat) :
  reliable_writes E ->
  forall m : machine,
    let run := precisionLoop E n symbol quantity
                 (submitWith E symbol side reduceOnly) m in
    (precisionCache (snd run) = precisionCache m /\
     precisionFile (snd run) = precisionFile m) \/
    precisionFile (snd run) = precisionCache (snd run).
Proof.
  intros Hrel. induction n as [|k IH]; intros m run; subst run.
  - left. split; reflexivity.
  - rewrite precisionLoop_step. cbv zeta.
    destruct (toFixed (roundQuantity quantity (Z.of_nat k)) (Z.of_nat k)) as [text|];
      [|left; split; reflexivity].
    destruct (placeMarketOrder E symbol side (roundQuantity quantity (Z.of_nat k))
                reduceOnly (world m)) as [[r|e] w'].
    + pose proof (Hrel w') as Hw.
      destruct (writeFileSync E w') as [written w'']. cbn in Hw. subst written.
      right. reflexivity.
    + destruct (precision_test e) as [[|]|]; [|left; split; reflexivity|left; split; reflexivity].
      set (m1 := mkMachine _ _ _ _). exact (IH m1).
Qed.

Lemma handlePrecisionError_coherent (m : machine) :
  reliable_writes E ->
  let run := handlePrecisionError E symbol quantity
               (submitWith E symbol side reduceOnly) m in
  (precisionCache (snd run) = precisionCache m /\
   precisionFile (snd run) = precisionFile m) \/
  precisionFile (snd run) = precisionCache (snd run).
Proof.
  intros Hrel run.
  pose proof (precisionLoop_coherent
                (Z.to_nat (getPrecision (precisionCache m) symbol + 1)) Hrel m) as H.
  cbv zeta in H. subst run. unfold handlePrecisionError, bind, gets.
  destruct (precisionLoop E _ symbol quantity
              (submitWith E symbol side reduceOnly) m) as [[[r|]|e] m'];
    cbn in *; exact H.
Qed.

(** X15. When the cache file can always be written, a smart placement
    either writes nothing or leaves the file equal to the cache, so that
    a manager loaded from the file resolves every symbol alike. *)
Theorem learned_precisions_reach_the_file (m : machine) :
  reliable_writes E ->
  let run := placeMarketOrderSmart E symbol side quantity reduceOnly m in
  (precisionCache (snd run) = precisionCache m /\
   precisionFile (snd run) = precisionFile m) \/
  (precisionFile (snd run) = precisionCache (snd run) /\
   forall s, getPrecision (loadPrecisionCache (Some (precisionFile (snd run)))) s =
             getPrecision (precisionCache (snd run)) s).
Proof.
  intros Hrel run.
  assert (H : (precisionCache (snd run) = precisionCache m /\
               precisionFile (snd run) = precisionFile m) \/
              precisionFile (snd run) = precisionCache (snd run)).
  { subst run. rewrite placeMarketOrderSmart_step. cbv zeta.
    cbn [precisionCache precisionFile log world].
    destruct (placeMarketOrder E symbol side _ reduceOnly (world m)) as [[r|error] w1];
      [left; split; reflexivity|].
    destruct (precision_test error) as [[|]|]; [|left; split; reflexivity|left; split; reflexivity].
    destruct (getExchangeInfo E w1) as [[exchangeInfo|e1] w2].
    - pose proof (Hrel w2) as Hw.
      destruct (writeFileSync E w2) as [written w3]. cbn in Hw. subst written.
      destruct (placeMarketOrder E symbol side _ reduceOnly w3) as [[r|e2] w4].
      + right. reflexivity.
      + match goal with
        | |- context [handlePrecisionError E symbol quantity _ ?m2] =>
            destruct (handlePrecisionError_coherent m2 Hrel) as [[Hc Hf]|Hf]
        end.
        * right. rewrite Hc, Hf. reflexivity.
        * right. exact Hf.
    - match goal with
      | |- context [handlePrecisionError E symbol quantity _ ?m2] =>
          destruct (handlePrecisionError_coherent m2 Hrel) as [[Hc Hf]|Hf]
      end.
      + left. split; [exact Hc | exact Hf].
      + right. exact Hf. }
  destruct H as [H|H]; [left; exact H|].
  right. split; [exact H|]. intros s. unfold loadPrecisionCache. rewrite H. reflexivity.
Qed.

(** Stored values stay non-negative. *)
Lemma cache_nonneg_insert (cache : gmap string pval) (key : string) (v : pval) :
  cache_nonneg cache ->
  match v with PNum z => 0 <= z | PNaN => True end ->
  cache_nonneg (<[key := v]> cache).
Proof.
  intros Hc Hv s z. destruct (decide (key = s)) as [->|Hne].
  - rewrite lookup_insert_eq. intros [= ->]. exact Hv.
  - rewrite lookup_insert_ne by exact Hne. apply Hc.
Qed.

Lemma getPrecision_nonneg (cache : gmap string pval) (s : string) :
  cache_nonneg cache -> 0 <= getPrecision cache s.
Proof.
  intros Hc. unfold getPrecision, cachedPrecision.
  destruct (cache !! s) as [[|z]|] eqn:Hlook; cbn.
  - destruct (isSymbolInDatabase s);
      [apply getPrecisionFromDatabase_range | apply patternPrecision_range].
  - destruct (z =? 0); cbn.
    + destruct (isSymbolInDatabase s);
        [apply getPrecisionFromDatabase_range | apply patternPrecision_range].
    + exact (Hc _ _ Hlook).
  - destruct (isSymbolInDatabase s);
      [apply getPrecisionFromDatabase_range | apply patternPrecision_range].
Qed.

(** X16. A cache whose stored numbers are at least 0 stays so through a
    smart placement, and the precision resolved from it is at least 0
    for every symbol that is not the name of a member that the cache
    object inherits. *)
Theorem cache_stays_nonneg (m : machine) :
  cache_nonneg (precisionCache m) ->
  let run := placeMarketOrderSmart E symbol side quantity reduceOnly m in
  cache_nonneg (precisionCache (snd run)) /\
  forall s, inherited_member s = false ->
            0 <= getPrecision (precisionCache (snd run)) s.
Proof.
  intros Hc run.
  assert (H : cache_nonneg (precisionCache (snd run))).
  { subst run. rewrite placeMarketOrderSmart_step. cbv zeta.
    cbn [precisionCache precisionFile log world].
    destruct (placeMarketOrder E symbol side _ reduceOnly (world m)) as [[r|error] w1];
      [exact Hc|].
    destruct (precision_test error) as [[|]|]; [|exact Hc|exact Hc].
    destruct (getExchangeInfo E w1) as [[exchangeInfo|e1] w2].
    - destruct (writeFileSync E w2) as [written w3].
      assert (Hd : cache_nonneg
                     (<[symbol := detectPrecisionFromExchangeInfo exchangeInfo symbol]>
                        (precisionCache m))).
      { apply cache_nonneg_insert; [exact Hc | apply detectPrecision_nonneg]. }
      destruct (placeMarketOrder E symbol side _ reduceOnly w3) as [[r|e2] w4];
        [exact Hd|].
      match goal with
      | |- context [handlePrecisionError E symbol quantity _ ?m2] =>
          destruct (handlePrecisionError_run E symbol side reduceOnly quantity m2)
            as [evs [outcome [_ [Hrun _]]]]
      end.
      cbn [precisionCache] in Hrun.
      destruct (loop_run_cache _ _ _ _ _ _ _ _ _ _ Hrun) as [Heq|[k Heq]];
        rewrite Heq; [exact Hd|].
      apply cache_nonneg_insert; [exact Hd | lia].
    - match goal with
      | |- context [handlePrecisionError E symbol quantity _ ?m2] =>
          destruct (handlePrecisionError_run E symbol side reduceOnly quantity m2)
            as [evs [outcome [_ [Hrun _]]]]
      end.
      cbn [precisionCache] in Hrun.
      destruct (loop_run_cache _ _ _ _ _ _ _ _ _ _ Hrun) as [Heq|[k Heq]];
        rewrite Heq; [exact Hc|].
      apply cache_nonneg_insert; [exact Hc | lia]. }
  split; [exact H|]. intros s _. apply getPrecision_nonneg. exact H.
Qed.

End LadderQuantities.

(** Runs of the whole-number venue for the three properties above. *)
Lemma smart_placement_touches_one_symbol_witness :
  let m := mkMachine (<["ETHUSDT"%string := PNum 1]> ∅) ∅ tt [] in
  let run := placeMarketOrderSmart wholeVenue "BTCUSDT" "BUY" (lit 78125 4) false m in
  "ETHUSDT"%string <> "BTCUSDT"%string /\
  precisionCache (snd run) !! "BTCUSDT"%string = Some (PNum 0) /\
  getPrecision (precisionCache (snd run)) "ETHUSDT" = 1.
Proof.
  cbv zeta.
  assert (Hne : "ETHUSDT"%string <> "BTCUSDT"%string) by discriminate.
  split; [exact Hne|]. split; [vm_compute; reflexivity|].
  etransitivity;
    [exact (proj2 (smart_placement_touches_one_symbol wholeVenue "BTCUSDT" "BUY"
                     false (lit 78125 4)
                     (mkMachine (<["ETHUSDT"%string := PNum 1]> ∅) ∅ tt [])
                     "ETHUSDT" Hne))
    | vm_compute; reflexivity].
Defined.

Lemma learned_precisions_reach_the_file_witness :
  let run := placeMarketOrderSmart wholeVenue "BTCUSDT" "BUY" (lit 78125 4) false
               (freshMachine tt) in
  reliable_writes wholeVenue /\
  precisionFile (snd run) !! "BTCUSDT"%string = Some (PNum 0) /\
  ((precisionCache (snd run) = ∅ /\ precisionFile (snd run) = ∅) \/
   (precisionFile (snd run) = precisionCache (snd run) /\
    forall s, getPrecision (loadPrecisionCache
                              (Some (precisionFile (snd run)))) s =
              getPrecision (precisionCache (snd run)) s)).
Proof.
  cbv zeta.
  assert (Hrel : reliable_writes wholeVenue) by (intros w; reflexivity).
  split; [exact Hrel|]. split; [vm_compute; reflexivity|].
  exact (learned_precisions_reach_the_file wholeVenue "BTCUSDT" "BUY" false
           (lit 78125 4) (freshMachine tt) Hrel).
Defined.

Lemma cache_stays_nonneg_witness :
  let run := placeMarketOrderSmart rejectingVenue "FOOUSDT" "BUY" (lit 78125 4) false
               (freshMachine tt) in
  cache_nonneg ∅ /\
  cache_nonneg (precisionCache (snd run)) /\
  forall s, inherited_member s = false ->
            0 <= getPrecision (precisionCache (snd run)) s.
Proof.
  cbv zeta.
  assert (Hc : cache_nonneg ∅).
  { intros s z Hl. rewrite lookup_empty in Hl. discriminate Hl. }
  split; [exact Hc|].
  exact (cache_stays_nonneg rejectingVenue "FOOUSDT" "BUY" false (lit 78125 4)
           (freshMachine tt) Hc).
Defined.

(** *** Closing a position *)

Section ClosingFacts.
Context {W R : Type} (E : env W R).
Variable getPositions : option string -> W -> result (list position) * W.
Variables (symbol : string) (quantity : option jsnum) (side : option string).

Lemma closePosition_step (m : machine) :
  closePosition E getPositions symbol quantity side m =
  if quantity_truthy quantity && string_truthy side then
    callPlaceMarketOrder E symbol (default ""%string side) (default NaN quantity) true m
  else
    match getPositions (if String.eqb symbol "" then None else Some symbol) (world m) with
    | (Throw e, w1) =>
        (Throw e, mkMachine (precisionCache m) (precisionFile m) w1 (log m))
    | (Ok positions, w1) =>
        let m1 := mkMachine (precisionCache m) (precisionFile m) w1 (log m) in
        let amount := amountIn positions symbol in
        if is_zero amount then (Throw (plainError "No position to close"), m1)
        else
          callPlaceMarketOrder E symbol
            (if string_truthy side then default ""%string side
             else if jlt (of_Z 0) amount then "SELL"%string else "BUY"%string)
            (if quantity_truthy quantity then default NaN quantity else jabs amount)
            true m1
    end.
Proof.
  unfold closePosition.
  destruct (quantity_truthy quantity && string_truthy side); [reflexivity|].
  unfold bind at 1. unfold getPositionAmount, bind, callGetPositions, ret.
  destruct (getPositions _ (world m)) as [[positions|e] w1]; [|reflexivity].
  destruct (is_zero (amountIn positions symbol)); reflexivity.
Qed.

Lemma callPlaceMarketOrder_effect (s : string) (q : jsnum) (ro : bool) (m : machine) :
  let run := callPlaceMarketOrder E symbol s q ro m in
  precisionCache (snd run) = precisionCache m /\
  precisionFile (snd run) = precisionFile m /\
  log (snd run) = log m ++ [EvSubmit symbol s q ro (raised_by (fst run))].
Proof.
  unfold callPlaceMarketOrder.
  destruct (placeMarketOrder E symbol s q ro (world m)) as [r w']. cbn.
  repeat split.
Qed.

(** X17. [closePosition] leaves the precision cache alone and sends at
    most one order, which is reduce-only. *)
Theorem closePosition_orders (m : machine) :
  let run := closePosition E getPositions symbol quantity side m in
  precisionCache (snd run) = precisionCache m /\
  precisionFile (snd run) = precisionFile m /\
  (log (snd run) = log m \/
   exists s q, log (snd run) = log m ++ [EvSubmit symbol s q true (raised_by (fst run))]).
Proof.
  intros run. subst run. rewrite closePosition_step.
  destruct (quantity_truthy quantity && string_truthy side).
  - destruct (callPlaceMarketOrder_effect (default ""%string side)
                (default NaN quantity) true m) as [Hc [Hf Hl]].
    split; [exact Hc|]. split; [exact Hf|]. right. eauto.
  - destruct (getPositions _ (world m)) as [[positions|e] w1].
    + cbv zeta. destruct (is_zero (amountIn positions symbol)).
      * cbn. repeat split. left. reflexivity.
      * match goal with
        | |- context [callPlaceMarketOrder E symbol ?s ?q true ?m1] =>
            destruct (callPlaceMarketOrder_effect s q true m1) as [Hc [Hf Hl]]
        end.
        split; [exact Hc|]. split; [exact Hf|]. right. eauto.
    + cbn. repeat split. left. reflexivity.
Qed.

(** X18. Without a truthy quantity (null, 0 or NaN) [closePosition]
    reads the position: a zero amount throws without an order; otherwise
    the order has the absolute amount, and, when no side is given, SELL
    for a positive amount and BUY otherwise. *)
Theorem closePosition_uses_the_position (m : machine) (positions : list position)
    (w1 : W) :
  quantity_truthy quantity = false ->
  getPositions (if String.eqb symbol "" then None else Some symbol) (world m) =
    (Ok positions, w1) ->
  let amount := amountIn positions symbol in
  let run := closePosition E getPositions symbol quantity side m in
  if is_zero amount
  then fst run = Throw (plainError "No position to close") /\ log (snd run) = log m
  else exists s,
      log (snd run) = log m ++ [EvSubmit symbol s (jabs amount) true (raised_by (fst run))] /\
      (string_truthy side = false ->
       s = if jlt (of_Z 0) amount then "SELL"%string else "BUY"%string).
Proof.
  intros Hq Hpos amount run. subst run. rewrite closePosition_step.
  rewrite Hq. cbn [andb]. rewrite Hpos. cbv zeta. fold amount.
  destruct (is_zero amount).
  - split; reflexivity.
  - match goal with
    | |- context [callPlaceMarketOrder E symbol ?s ?q true ?m1] =>
        destruct (callPlaceMarketOrder_effect s q true m1) as [_ [_ Hl]]
    end.
    eexists. split; [exact Hl|].
    intros Hs. rewrite Hs. reflexivity.
Qed.

End ClosingFacts.

Lemma closePosition_uses_the_position_witness :
  let positions := [mkPosition "ETHUSDT" (Some "3"); mkPosition "BTCUSDT" (Some "-0.5")] in
  let lookup := fun (_ : option string) (w : unit) => (Ok positions, w) in
  let run := closePosition wholeVenue lookup "BTCUSDT" (Some (of_Z 0)) None
               (freshMachine tt) in
  quantity_truthy (Some (of_Z 0)) = false /\
  exists s,
    log (snd run) =
      [EvSubmit "BTCUSDT" s (jabs (parseFloat "-0.5")) true (raised_by (fst run))] /\
    s = "BUY"%string.
Proof.
  cbv zeta. split; [reflexivity|].
  pose proof (closePosition_uses_the_position wholeVenue
                (fun (_ : option string) (w : unit) =>
                   (Ok [mkPosition "ETHUSDT" (Some "3"); mkPosition "BTCUSDT" (Some "-0.5")], w))
                "BTCUSDT" (Some (of_Z 0)) None (freshMachine tt) _ tt
                eq_refl eq_refl) as H.
  cbv zeta in H.
  assert (Hz : is_zero (amountIn [mkPosition "ETHUSDT" (Some "3");
                                  mkPosition "BTCUSDT" (Some "-0.5")] "BTCUSDT") = false)
    by (vm_compute; reflexivity).
  rewrite Hz in H. destruct H as [s [Hl Hs]].
  exists s. split; [exact Hl|]. rewrite (Hs eq_refl). vm_compute. reflexivity.
Defined.

(** *** What is submitted, and what detection reads *)

Section SubmittedQuantities.
Context {W R : Type} (E : env W R).
Variables (symbol side : string) (reduceOnly : bool) (quantity : jsnum).

Lemma ladder_roundings (m : machine) :
  let run := handlePrecisionError E symbol quantity
               (submitWith E symbol side reduceOnly) m in
  exists evs,
    log (snd run) = log m ++ evs /\
    Forall (fun q => exists p, q = roundQuantity quantity p) (submitted evs).
Proof.
  intros run. destruct (ladder_quantities E symbol side reduceOnly quantity m)
    as [evs [j [Hlog [_ Hq]]]].
  exists evs. split; [exact Hlog|]. rewrite Hq.
  apply Forall_forall. intros q Hin. apply list_elem_of_In, in_map_iff in Hin.
  destruct Hin as [i [<- _]]. eauto.
Qed.

(** X19. The first quantity a smart placement submits is the rounding of
    the requested quantity at the resolved precision, and every later
    one is a rounding of the requested quantity too. *)
Theorem smart_placement_submits_roundings (m : machine) :
  let p0 := getPrecision (precisionCache m) symbol in
  let run := placeMarketOrderSmart E symbol side quantity reduceOnly m in
  exists evs rest,
    log (snd run) = log m ++ evs /\
    submitted evs = roundQuantity quantity p0 :: rest /\
    Forall (fun q => exists p, q = roundQuantity quantity p) rest.
Proof.
  intros p0 run. subst run. rewrite placeMarketOrderSmart_step. cbv zeta.
  cbn [precisionCache precisionFile log world]. fold p0.
  destruct (placeMarketOrder E symbol side _ reduceOnly (world m)) as [[r|error] w1].
  - eexists. exists []. split; [reflexivity|]. split; [reflexivity | constructor].
  - destruct (precision_test error) as [[|]|]; cycle 1.
    { eexists. exists []. split; [reflexivity|]. split; [reflexivity | constructor]. }
    { eexists. exists []. split; [reflexivity|]. split; [reflexivity | constructor]. }
    destruct (getExchangeInfo E w1) as [[exchangeInfo|e1] w2].
    + destruct (writeFileSync E w2) as [written w3].
      destruct (placeMarketOrder E symbol side _ reduceOnly w3) as [[r|e2] w4].
      * eexists. eexists. split; [cbn; rewrite <- !app_assoc; reflexivity|].
        split; [reflexivity|]. constructor; [eauto | constructor].
      * match goal with
        | |- context [handlePrecisionError E symbol quantity _ ?m2] =>
            destruct (ladder_roundings m2) as [evs [Hlog Hall]]
        end.
        cbn [log] in Hlog.
        eexists. eexists. split; [rewrite Hlog, <- !app_assoc; reflexivity|].
        cbn [app submitted]. split; [reflexivity|].
        constructor; [eauto | exact Hall].
    + match goal with
      | |- context [handlePrecisionError E symbol quantity _ ?m2] =>
          destruct (ladder_roundings m2) as [evs [Hlog Hall]]
      end.
      cbn [log] in Hlog.
      eexists. eexists. split; [rewrite Hlog, <- !app_assoc; reflexivity|].
      cbn [app submitted]. split; [reflexivity | exact Hall].
Qed.

End SubmittedQuantities.

Lemma find_skips (name : string) (before : list symbol_info) (rest : list symbol_info) :
  Forall (fun s => symbolName s <> name) before ->
  List.find (fun s => String.eqb (symbolName s) name) (before ++ rest) =
  List.find (fun s => String.eqb (symbolName s) name) rest.
Proof.
  induction 1 as [|s before Hs _ IH]; [reflexivity|].
  cbn. destruct (String.eqb_spec (symbolName s) name); [contradiction | exact IH].
Qed.

(** X20. Detection reads the first entry of the exchange info whose name
    is the symbol, whatever comes before or after it, and answers 3 when
    there is no such entry or no list of symbols. *)
Theorem detection_reads_first_entry (symbol : string)
    (before after : list symbol_info) (info : symbol_info) :
  Forall (fun s => symbolName s <> symbol) before ->
  (symbolName info = symbol ->
   detectPrecisionFromExchangeInfo
     (mkExchangeInfo (Some (before ++ info :: after))) symbol =
   detectPrecisionFromExchangeInfo (mkExchangeInfo (Some [info])) symbol) /\
  detectPrecisionFromExchangeInfo (mkExchangeInfo (Some before)) symbol = PNum 3 /\
  detectPrecisionFromExchangeInfo (mkExchangeInfo None) symbol = PNum 3.
Proof.
  intros Hb. split; [|split].
  - intros Hname. unfold detectPrecisionFromExchangeInfo. cbn [symbols].
    rewrite (find_skips symbol before (info :: after) Hb).
    cbn [List.find]. rewrite Hname, String.eqb_refl. reflexivity.
  - unfold detectPrecisionFromExchangeInfo. cbn [symbols].
    rewrite <- (app_nil_r before), (find_skips symbol before [] Hb). reflexivity.
  - reflexivity.
Qed.

Lemma detection_reads_first_entry_witness :
  let other := mkSymbolInfo "BARUSDT" (Some [mkFilter "LOT_SIZE" (Some "0.1")]) in
  let wanted := mkSymbolInfo "FOOUSDT" (Some [mkFilter "LOT_SIZE" (Some "0.001")]) in
  let again := mkSymbolInfo "FOOUSDT" (Some [mkFilter "LOT_SIZE" (Some "1")]) in
  Forall (fun s => symbolName s <> "FOOUSDT"%string) [other] /\
  detectPrecisionFromExchangeInfo
    (mkExchangeInfo (Some [other; wanted; again])) "FOOUSDT" = PNum 3.
Proof.
  cbv zeta.
  assert (Hb : Forall (fun s => symbolName s <> "FOOUSDT"%string)
                 [mkSymbolInfo "BARUSDT" (Some [mkFilter "LOT_SIZE" (Some "0.1")])])
    by (repeat constructor; discriminate).
  split; [exact Hb|].
  etransitivity;
    [exact (proj1 (detection_reads_first_entry "FOOUSDT" _
                     [mkSymbolInfo "FOOUSDT" (Some [mkFilter "LOT_SIZE" (Some "1")])]
                     (mkSymbolInfo "FOOUSDT" (Some [mkFilter "LOT_SIZE" (Some "0.001")]))
                     Hb) eq_refl)
    | vm_compute; reflexivity].
Defined.

(** *** Failing writes of the cache file *)

Lemma venue_calls_app (l1 l2 : list event) :
  venue_calls (l1 ++ l2) = venue_calls l1 ++ venue_calls l2.
Proof. apply List.filter_app. Qed.

Lemma agree_ret {W A : Type} (a : A) : agree (W := W) (ret a) (ret a).
Proof. intros m m' H. split; [reflexivity | exact H]. Qed.

Lemma agree_throw {W A : Type} (e : js_error) :
  agree (W := W) (A := A) (throw e) (throw e).
Proof. intros m m' H. split; [reflexivity | exact H]. Qed.

Lemma agree_bind {W A B : Type} (c c' : M (W := W) A) (k k' : A -> M B) :
  agree c c' -> (forall a, agree (k a) (k' a)) -> agree (bind c k) (bind c' k').
Proof.
  intros Hc Hk m m' H. unfold bind.
  destruct (Hc m m' H) as [Hr Hm].
  destruct (c m) as [r m1], (c' m') as [r' m1']. cbn in Hr, Hm. subst r'.
  destruct r as [a | e].
  - apply Hk, Hm.
  - split; [reflexivity | exact Hm].
Qed.

Lemma agree_try_catch {W A : Type} (c c' : M (W := W) A)
    (h h' : js_error -> M A) :
  agree c c' -> (forall e, agree (h e) (h' e)) ->
  agree (try_catch c h) (try_catch c' h').
Proof.
  intros Hc Hh m m' H. unfold try_catch.
  destruct (Hc m m' H) as [Hr Hm].
  destruct (c m) as [r m1], (c' m') as [r' m1']. cbn in Hr, Hm. subst r'.
  destruct r as [a | e].
  - split; [reflexivity | exact Hm].
  - apply Hh, Hm.
Qed.

Lemma agree_gets_cache {W A : Type} (g : gmap string pval -> A) :
  agree (W := W) (gets (fun m => g (precisionCache m)))
                 (gets (fun m => g (precisionCache m))).
Proof.
  intros m m' H. unfold gets. cbn [fst snd].
  destruct H as (Hc & Hw & Hl). rewrite Hc.
  split; [reflexivity | split; [exact Hc | split; assumption]].
Qed.

Lemma agree_getSmartQuantity {W : Type} (symbol : string) (quantity : jsnum) :
  agree (W := W) (getSmartQuantity symbol quantity) (getSmartQuantity symbol quantity).
Proof.
  exact (agree_gets_cache
           (fun cache => roundQuantity quantity (getPrecision cache symbol))).
Qed.

Section WriteFailures.
Context {W R : Type}.
Variables E E' : env W R.
Hypothesis HE : same_venue E E'.

Lemma agree_setPrecision (symbol : string) (precision : pval) :
  agree (setPrecision E symbol precision) (setPrecision E' symbol precision).
Proof.
  intros m m' (Hc & Hw & Hl). unfold setPrecision, savePrecisionCache.
  cbn [precisionCache precisionFile world log].
  destruct HE as (_ & _ & Hwrite). specialize (Hwrite (world m)).
  rewrite <- Hw.
  destruct (writeFileSync E (world m)) as [b w1],
           (writeFileSync E' (world m)) as [b' w1'].
  cbn in Hwrite. subst w1'.
  split; [reflexivity |]. unfold alike. cbn [fst snd precisionCache world log].
  rewrite Hc, !venue_calls_app, Hl. split; [reflexivity | split; reflexivity].
Qed.

Lemma agree_callPlaceMarketOrder (symbol side : string) (quantity : jsnum)
    (reduceOnly : bool) :
  agree (callPlaceMarketOrder E symbol side quantity reduceOnly)
        (callPlaceMarketOrder E' symbol side quantity reduceOnly).
Proof.
  intros m m' (Hc & Hw & Hl). unfold callPlaceMarketOrder.
  destruct HE as (Hplace & _ & _).
  rewrite <- Hw, <- Hplace.
  destruct (placeMarketOrder E symbol side quantity reduceOnly (world m)) as [r w1].
  split; [reflexivity |]. unfold alike. cbn [fst snd precisionCache world log].
  rewrite !venue_calls_app, Hl. split; [exact Hc | split; reflexivity].
Qed.

Lemma agree_callGetExchangeInfo :
  agree (callGetExchangeInfo E) (callGetExchangeInfo E').
Proof.
  intros m m' (Hc & Hw & Hl). unfold callGetExchangeInfo.
  destruct HE as (_ & Hinfo & _).
  rewrite <- Hw, <- Hinfo.
  destruct (getExchangeInfo E (world m)) as [r w1].
  split; [reflexivity |]. unfold alike. cbn [fst snd precisionCache world log].
  rewrite !venue_calls_app, Hl. split; [exact Hc | split; reflexivity].
Qed.

Lemma agree_logRounded (q : jsnum) (p : Z) :
  agree (W := W) (logRounded q p) (logRounded q p).
Proof.
  unfold logRounded. destruct (toFixed q p); [apply agree_ret | apply agree_throw].
Qed.

Lemma agree_precisionLoop (n : nat) (symbol : string) (quantity : jsnum)
    (f f' : jsnum -> M R) :
  (forall q, agree (f q) (f' q)) ->
  agree (precisionLoop E n symbol quantity f) (precisionLoop E' n symbol quantity f').
Proof.
  intros Hf. induction n as [| n IH]; cbn [precisionLoop].
  - apply agree_ret.
  - apply agree_try_catch.
    + apply agree_bind; [apply agree_logRounded | intros _].
      apply agree_bind; [apply Hf | intros r].
      apply agree_bind; [apply agree_setPrecision | intros _].
      apply agree_ret.
    + intros e.
      destruct (precision_test e) as [[|]|];
        [exact IH | apply agree_throw | apply agree_throw].
Qed.

Lemma agree_handlePrecisionError (symbol : string) (quantity : jsnum)
    (f f' : jsnum -> M R) :
  (forall q, agree (f q) (f' q)) ->
  agree (handlePrecisionError E symbol quantity f)
        (handlePrecisionError E' symbol quantity f').
Proof.
  intros Hf. unfold handlePrecisionError.
  apply agree_bind;
    [exact (agree_gets_cache (fun cache => getPrecision cache symbol)) | intros p0].
  apply agree_bind; [apply agree_precisionLoop, Hf |].
  intros [r |]; [apply agree_ret | apply agree_throw].
Qed.

Lemma agree_placeMarketOrderSmart (symbol side : string) (quantity : jsnum)
    (reduceOnly : bool) :
  agree (placeMarketOrderSmart E symbol side quantity reduceOnly)
        (placeMarketOrderSmart E' symbol side quantity reduceOnly).
Proof.
  unfold placeMarketOrderSmart.
  apply agree_try_catch.
  - apply agree_bind; [apply agree_getSmartQuantity | intros q].
    apply agree_callPlaceMarketOrder.
  - intros e.
    destruct (precision_test e) as [[|]|]; [| apply agree_throw | apply agree_throw].
    apply agree_bind.
    + apply agree_try_catch; [| intros _; apply agree_ret].
      apply agree_bind; [apply agree_callGetExchangeInfo | intros info].
      apply agree_bind; [apply agree_setPrecision | intros _].
      apply agree_bind; [apply agree_getSmartQuantity | intros q].
      apply agree_bind; [apply agree_callPlaceMarketOrder | intros r].
      apply agree_ret.
    + intros [r |]; [apply agree_ret |].
      apply agree_handlePrecisionError. intros q.
      apply agree_callPlaceMarketOrder.
Qed.

(** X21. A write of the cache file that fails changes nothing but the
    file: with the same venue, a smart placement gives the same result
    or error, the same cache, and the same calls to the venue whether
    the writes go through or not. *)
Theorem file_writes_do_not_matter (symbol side : string) (quantity : jsnum)
    (reduceOnly : bool) (m : machine) :
  let run := placeMarketOrderSmart E symbol side quantity reduceOnly m in
  let run' := placeMarketOrderSmart E' symbol side quantity reduceOnly m in
  fst run = fst run' /\
  precisionCache (snd run) = precisionCache (snd run') /\
  world (snd run) = world (snd run') /\
  venue_calls (log (snd run)) = venue_calls (log (snd run')).
Proof.
  cbv zeta.
  apply (agree_placeMarketOrderSmart symbol side quantity reduceOnly m m).
  repeat split; reflexivity.
Qed.

End WriteFailures.

Lemma file_writes_do_not_matter_witness :
  same_venue wholeVenue (unwritable wholeVenue) /\
  let run := placeMarketOrderSmart wholeVenue "BTCUSDT" "BUY" (lit 78125 4) false
               (freshMachine tt) in
  let run' := placeMarketOrderSmart (unwritable wholeVenue) "BTCUSDT" "BUY"
                (lit 78125 4) false (freshMachine tt) in
  fst run = fst run' /\
  precisionCache (snd run) = precisionCache (snd run') /\
  world (snd run) = world (snd run') /\
  venue_calls (log (snd run)) = venue_calls (log (snd run')).
Proof.
  assert (H : same_venue wholeVenue (unwritable wholeVenue))
    by (repeat split; reflexivity).
  split; [exact H |].
  exact (file_writes_do_not_matter wholeVenue (unwritable wholeVenue) H
           "BTCUSDT" "BUY" (lit 78125 4) false (freshMachine tt)).
Defined.

(** *** An error without its message *)


Section MissingMessage.
Context {W R : Type} (E : env W R).
Variables (symbol side : string) (reduceOnly : bool) (quantity : jsnum).


End MissingMessage.

